(** * Quantum demos: the hand-written 2-qubit simulator of QDS.py

    A shallow embedding of [simulate_quantum_circuit], [generate_signature]
    and [verify_signature] (src/QDS.py) and of the coin-toss driver
    (src/QCTS.py), with the properties of the design document checked
    against them.

    Numbers.  The simulator works on numpy arrays of machine numbers.  The
    code is embedded once, over an interface [Scalar] of the operations it
    uses, and read at two instances: the real numbers (exact arithmetic, for
    statements about every vector) and IEEE binary64 (what numpy computes,
    for closed runs that evaluate). *)

From Stdlib Require Import String Ascii Bool Arith Lia List.
From Stdlib Require Import Permutation.
From Stdlib Require Import Floats.
From Stdlib Require Import Reals Lra.
Import ListNotations.

Local Open Scope string_scope.
Local Open Scope list_scope.

(* ================================================================= *)
(** ** Scalars *)

Class Scalar (T : Type) : Type := {
  s_zero : T;
  s_one  : T;
  s_two  : T;
  s_add  : T -> T -> T;
  s_sub  : T -> T -> T;
  s_mul  : T -> T -> T;
  s_div  : T -> T -> T;
  s_sqrt : T -> T;
  s_eqb  : T -> T -> bool
}.

(** Python's [==] on real numbers. *)
Definition Reqb (x y : R) : bool :=
  if Req_dec_T x y then true else false.

#[export] Instance R_scalar : Scalar R := {|
  s_zero := 0%R;
  s_one  := 1%R;
  s_two  := 2%R;
  s_add  := Rplus;
  s_sub  := Rminus;
  s_mul  := Rmult;
  s_div  := Rdiv;
  s_sqrt := R_sqrt.sqrt;
  s_eqb  := Reqb
|}.

#[export] Instance float_scalar : Scalar float := {|
  s_zero := 0%float;
  s_one  := 1%float;
  s_two  := 2%float;
  s_add  := PrimFloat.add;
  s_sub  := PrimFloat.sub;
  s_mul  := PrimFloat.mul;
  s_div  := PrimFloat.div;
  s_sqrt := PrimFloat.sqrt;
  s_eqb  := PrimFloat.eqb
|}.

(* ================================================================= *)
(** ** Python results: a value or a raised exception *)

Inductive exn : Type :=
| ValueError (msg : string)
| IndexError.

Inductive result (E A : Type) : Type :=
| Ok (a : A)
| Raise (e : E).

Arguments Ok {E A} a.
Arguments Raise {E A} e.

Definition bind {E A B : Type} (c : result E A) (k : A -> result E B)
  : result E B :=
  match c with
  | Ok a => k a
  | Raise e => Raise e
  end.

Notation "x <- c ;; k" := (bind c (fun x => k))
  (at level 61, c at next level, right associativity).

(** [l[i]] and [l[i] = x] for a constant index [i >= 0]: out of range raises
    [IndexError]. *)
Definition getitem {A : Type} (l : list A) (i : nat) : result exn A :=
  match nth_error l i with
  | Some x => Ok x
  | None => Raise IndexError
  end.

Fixpoint set_nth {A : Type} (i : nat) (x : A) (l : list A) : list A :=
  match l, i with
  | [], _ => []
  | _ :: t, O => x :: t
  | h :: t, S j => h :: set_nth j x t
  end.

Definition setitem {A : Type} (l : list A) (i : nat) (x : A)
  : result exn (list A) :=
  if (i <? length l)%nat then Ok (set_nth i x l) else Raise IndexError.

(* ================================================================= *)
(** ** Circuits, as the simulator reads them

    The simulator reads of a circuit only [qc.data] and, of each entry,
    [inst.operation.name].  The qubit count and the operands are carried
    along to state what the simulator does not look at. *)

Record Operation : Type := mkOperation { name : string }.

Record CircuitInstruction : Type := mkInstruction {
  operation : Operation;
  qubits : list nat;
  clbits : list nat
}.

Record QuantumCircuit : Type := mkCircuit {
  num_qubits : nat;
  num_clbits : nat;
  data : list CircuitInstruction
}.

Definition qc_append (qc : QuantumCircuit) (nm : string) (qs cs : list nat)
  : QuantumCircuit :=
  mkCircuit (num_qubits qc) (num_clbits qc)
            (data qc ++ [mkInstruction (mkOperation nm) qs cs]).

(** The builder calls of the circuit library used by the drivers:
    [qc.x(q)], [qc.h(q)], [qc.cx(c, t)], [qc.measure(q, c)] each add one
    instruction, named after the gate, at the end of [qc.data]. *)
Definition x (qc : QuantumCircuit) (q : nat) := qc_append qc "x" [q] [].
Definition h (qc : QuantumCircuit) (q : nat) := qc_append qc "h" [q] [].
Definition cx (qc : QuantumCircuit) (c t : nat) := qc_append qc "cx" [c; t] [].
Definition measure (qc : QuantumCircuit) (q c : nat) := qc_append qc "measure" [q] [c].

(** [str.lower] on the Latin letters. *)
Definition lower_ascii (c : ascii) : ascii :=
  let n := nat_of_ascii c in
  if ((65 <=? n)%nat && (n <=? 90)%nat)%bool then ascii_of_nat (n + 32) else c.

Fixpoint lower (s : string) : string :=
  match s with
  | EmptyString => EmptyString
  | String c s' => String (lower_ascii c) (lower s')
  end.

(** [any(inst.operation.name.lower() == nm for inst in qc.data)] *)
Definition any_named (qc : QuantumCircuit) (nm : string) : bool :=
  existsb (fun inst => String.eqb (lower (name (operation inst))) nm) (data qc).

(* ================================================================= *)
(** ** QDS.py: the simulator *)

Section Simulator.
Context {T : Type} `{Scalar T}.

(** [np.kron] on one-dimensional arrays. *)
Definition kron (a b : list T) : list T :=
  flat_map (fun ai => map (s_mul ai) b) a.

(** QDS.py line 11: [state = np.array([1, 0, 0, 0])]. *)
Definition initial_state : list T := [s_one; s_zero; s_zero; s_zero].

(** Lines 14-15, the body of the X block. *)
Definition apply_x (state : list T) : list T :=
  [s_zero; s_one; s_zero; s_zero].

(** Lines 19-20, the body of the H block. *)
Definition hadamard : list T :=
  map (fun e => s_div e (s_sqrt s_two)) [s_one; s_one].

Definition apply_h (state : list T) : list T :=
  kron (firstn 2 state) hadamard.

(** Lines 25-27, the body of the CX block. *)
Definition apply_cx (state : list T) : result exn (list T) :=
  s1 <- getitem state 1 ;;
  if s_eqb s1 s_one then
    s2 <- getitem state 2 ;;
    state <- setitem state 3 s2 ;;
    setitem state 2 s_zero
  else Ok state.

(** The state after each of the three blocks. *)
Definition after_x (qc : QuantumCircuit) : list T :=
  if any_named qc "x" then apply_x initial_state else initial_state.

Definition after_h (qc : QuantumCircuit) : list T :=
  if any_named qc "h" then apply_h (after_x qc) else after_x qc.

Definition after_cx (qc : QuantumCircuit) : result exn (list T) :=
  if any_named qc "cx" then apply_cx (after_h qc) else Ok (after_h qc).

Definition simulate_quantum_circuit (qc : QuantumCircuit) : result exn (list T) :=
  state <- after_cx qc ;;
  Ok state.

(** Lines 58-72. *)
Definition verify_signature (qc : QuantumCircuit) : result exn string :=
  state <- simulate_quantum_circuit qc ;;
  signature <- getitem state 3 ;;
  if s_eqb signature s_one then Ok "1" else Ok "0".

(** Sum of the squares of the entries. *)
Definition norm2 (v : list T) : T :=
  fold_right (fun a acc => s_add (s_mul a a) acc) s_zero v.

End Simulator.

(** Lines 33-55. *)
Definition generate_signature (message : string) : result exn QuantumCircuit :=
  if negb (existsb (String.eqb message) ["0"; "1"]) then
    Raise (ValueError "Message must be '0' or '1'.")
  else
    let qc := mkCircuit 2 1 [] in
    let qc := if String.eqb message "1" then x qc 0 else qc in
    let qc := h qc 1 in
    let qc := cx qc 0 1 in
    let qc := measure qc 1 0 in
    Ok qc.

(* ================================================================= *)
(** ** The general simulator of the design document

    QCTS.py and QRNG.py hand their circuit to the circuit library
    ([Statevector.from_instruction], [probabilities_dict]); that code is not
    part of the repository.  The definitions of this module follow the design
    document (sections 3, 4.1, 4.2, 4.3) instead. *)

Module Design.

(** Modelled from the spec: section 7, the three errors of the core. *)
Inductive error : Type :=
| InvalidQubitCount
| QubitIndexOutOfRange
| DegenerateDistribution.

(** Modelled from the spec: section 3, a gate is a tagged operation. *)
Inductive Gate : Type :=
| Hadamard (q : nat)
| PauliX (q : nat)
| ControlledX (c t : nat).

Section Amplitudes.
Context {T : Type} `{Scalar T}.

(** A complex amplitude, real and imaginary part. *)
Definition amplitude : Type := (T * T)%type.

Definition c_zero : amplitude := (s_zero, s_zero).
Definition c_one : amplitude := (s_one, s_zero).
Definition c_add (a b : amplitude) : amplitude :=
  (s_add (fst a) (fst b), s_add (snd a) (snd b)).
Definition c_sub (a b : amplitude) : amplitude :=
  (s_sub (fst a) (fst b), s_sub (snd a) (snd b)).
Definition c_div_sqrt2 (a : amplitude) : amplitude :=
  (s_div (fst a) (s_sqrt s_two), s_div (snd a) (s_sqrt s_two)).
(** Squared magnitude. *)
Definition c_norm2 (a : amplitude) : T :=
  s_add (s_mul (fst a) (fst a)) (s_mul (snd a) (snd a)).

(** Modelled from the spec: section 4.1, amplitude vector initialization
    (the library's initial state of a fresh circuit). *)
Definition initialize_state (n : Z) : result error (list amplitude) :=
  if (n <=? 0)%Z then Raise InvalidQubitCount
  else Ok (c_one :: repeat c_zero (Z.to_nat (2 ^ n) - 1)).

(** The number of qubits of a vector of [2^n] entries. *)
Definition qubit_count (v : list amplitude) : nat := Nat.log2 (length v).

Definition at_index (v : list amplitude) (i : nat) : amplitude :=
  nth i v c_zero.

(** Modelled from the spec: section 4.2, Hadamard on qubit [q] by bit
    indexing: the basis states [i] and [i + 2^q] (bit [q] of [i] clear) get
    [(a0 + a1)/sqrt 2] and [(a0 - a1)/sqrt 2]. *)
Definition hadamard_gate (q : nat) (v : list amplitude) : list amplitude :=
  map (fun i =>
         if Nat.testbit i q
         then c_div_sqrt2 (c_sub (at_index v (i - 2 ^ q)) (at_index v i))
         else c_div_sqrt2 (c_add (at_index v i) (at_index v (i + 2 ^ q))))
      (seq 0 (length v)).

(** Modelled from the spec: section 4.2, PauliX on qubit [q] swaps the
    amplitudes of every pair of basis states that differ in bit [q]. *)
Definition pauli_x_gate (q : nat) (v : list amplitude) : list amplitude :=
  map (fun i => at_index v (Nat.lxor i (2 ^ q))) (seq 0 (length v)).

(** Modelled from the spec: section 4.2, ControlledX: a basis state with
    bit [c] set takes the amplitude of the state with bit [t] flipped. *)
Definition controlled_x_gate (c t : nat) (v : list amplitude)
  : list amplitude :=
  map (fun i =>
         if Nat.testbit i c then at_index v (Nat.lxor i (2 ^ t))
         else at_index v i)
      (seq 0 (length v)).

(** Modelled from the spec: sections 4.2 and 6, [apply_gate]; a qubit index
    outside [0, n) fails with [QubitIndexOutOfRange] (the library's evolution
    of a state by one gate). *)
Definition apply_gate (v : list amplitude) (g : Gate)
  : result error (list amplitude) :=
  let n := qubit_count v in
  match g with
  | Hadamard q =>
      if (q <? n)%nat then Ok (hadamard_gate q v)
      else Raise QubitIndexOutOfRange
  | PauliX q =>
      if (q <? n)%nat then Ok (pauli_x_gate q v)
      else Raise QubitIndexOutOfRange
  | ControlledX c t =>
      if ((c <? n)%nat && (t <? n)%nat)%bool
      then Ok (controlled_x_gate c t v)
      else Raise QubitIndexOutOfRange
  end.

(** Modelled from the spec: section 2, the gates of a circuit are applied
    one after the other, in circuit order. *)
Fixpoint apply_gates (v : list amplitude) (gs : list Gate)
  : result error (list amplitude) :=
  match gs with
  | [] => Ok v
  | g :: gs' => v' <- apply_gate v g ;; apply_gates v' gs'
  end.

(** Modelled from the spec: the data flow of section 2, a circuit of [n]
    qubits and a gate sequence to its final vector (the library's
    [Statevector.from_instruction]). *)
Definition statevector (n : Z) (gs : list Gate)
  : result error (list amplitude) :=
  v <- initialize_state n ;; apply_gates v gs.

(** The basis label of index [i] on [n] qubits: its binary digits,
    padded with zeros to [n] digits. *)
Fixpoint label (n i : nat) : string :=
  match n with
  | O => ""
  | S m => label m (i / 2) ++ (if Nat.odd i then "1" else "0")
  end.

(** Modelled from the spec: section 4.3, the probability extractor (the
    library's [probabilities_dict]); every entry is retained. *)
Definition extract_probabilities (v : list amplitude)
  : list (string * T) :=
  map (fun i => (label (qubit_count v) i, c_norm2 (at_index v i)))
      (seq 0 (length v)).

End Amplitudes.

End Design.

(* ================================================================= *)
(** ** QCTS.py: the coin toss *)

Section CoinToss.
Context {T : Type} `{Scalar T}.

(** [np.random.choice(labels, p=weights)], the sampler of the numeric
    library with its process-wide random state, is an argument: it draws a
    label or fails. *)
Variable choice :
  list string -> list T -> result Design.error string.

(** Lines 17-39, without the two plotting calls. *)
Definition quantum_coin_toss
  : result Design.error (string * list (string * T)) :=
  state <- Design.statevector 1 [Design.Hadamard 0] ;;
  let probabilities := Design.extract_probabilities state in
  toss_result <-
    choice (map fst probabilities) (map snd probabilities) ;;
  if String.eqb toss_result "0" then Ok ("Heads", probabilities)
  else Ok ("Tails", probabilities).

End CoinToss.

(* ================================================================= *)
(** ** QDS.py: the drivers [simulate_communication] and [main]

    What a driver writes and asks is kept as a transcript of events, in
    order: one event for every [print] call that writes its text, and one
    for every [input] call.  The text drawing of a circuit is made by the
    circuit library; the transcript records which circuit was drawn. *)

Inductive event : Type :=
| Printed (line : string)
| Drew (qc : QuantumCircuit)
| Prompted (prompt : string).

(** How [main] ends: it returns, or an exception leaves it: [EOFError] of
    [input()] when the input has run out, or an exception of the
    simulation. *)
Inductive ending : Type :=
| Returned
| EOFError
| Uncaught (e : exn).

Section Communication.
Context {T : Type} `{Scalar T}.

(** The standard output and the circuit library.  [print] raises
    [UnicodeEncodeError], a [ValueError], and writes nothing, when the
    standard output cannot encode its text.  Every encoding writes the ASCII
    characters; [stdout_encodes] tells which other characters it writes.
    [drawing qc] is the text of [qc.draw()], and [encode_error s] the text
    of the exception raised for the text [s], which is ASCII. *)
Variable stdout_encodes : ascii -> bool.
Variable drawing : QuantumCircuit -> string.
Variable encode_error : string -> string.

Fixpoint encodable (s : string) : bool :=
  match s with
  | EmptyString => true
  | String c s' =>
      ((nat_of_ascii c <? 128)%nat || stdout_encodes c) && encodable s'
  end.

(** Lines 83-96, the body of the [try]: the events written, and whether an
    exception left it.  Its other texts are ASCII. *)
Definition try_body (message : string) : list event * result exn unit :=
  match generate_signature message with
  | Raise e => ([], Raise e)
  | Ok signature_circuit =>
      let out := [Printed "Quantum Circuit for Signature Generation:"] in
      if encodable (drawing signature_circuit) then
        let out := out ++ [Drew signature_circuit] in
        match verify_signature signature_circuit with
        | Raise e => (out, Raise e)
        | Ok verification_result =>
            (out ++ [Printed ("Verification result: " ++ verification_result)%string;
                     if String.eqb verification_result "1"
                     then Printed "Signature verified successfully!"
                     else Printed "Verification failed!"],
             Ok tt)
        end
      else (out, Raise (ValueError (encode_error (drawing signature_circuit))))
  end.

(** Lines 80-98, one turn of the loop.  The first [print], of the message,
    is outside the [try].  [except ValueError as e] catches a [ValueError]
    of the body and prints it; any other exception goes on. *)
Definition communicate (message : string) : list event * result exn unit :=
  if encodable ("Alice's message: " ++ message) then
    let (out, r) := try_body message in
    let out := Printed ("Alice's message: " ++ message)%string :: out in
    match r with
    | Raise (ValueError msg) => (out ++ [Printed ("Error: " ++ msg)%string], Ok tt)
    | _ => (out, r)
    end
  else
    ([], Raise (ValueError (encode_error ("Alice's message: " ++ message)))).

(** Lines 75-98. *)
Fixpoint simulate_communication (messages : list string)
  : list event * result exn unit :=
  match messages with
  | [] => ([], Ok tt)
  | message :: rest =>
      let (out, r) := communicate message in
      match r with
      | Raise e => (out, Raise e)
      | Ok _ =>
          let (out', r') := simulate_communication rest in
          (out ++ out', r')
      end
  end.

Definition ask_message : event :=
  Prompted "Enter a message to send (binary '0' or '1', or type 'exit' to quit): ".

Definition ask_more : event :=
  Prompted "Do you want to send another message? (yes/no): ".

(** Lines 105-125, the [while True] loop of [main], over the lines the user
    types: every turn reads one line, and a second one after a simulation. *)
Fixpoint main_loop (inputs : list string) : list event * ending :=
  match inputs with
  | [] => ([ask_message], EOFError)
  | message :: rest =>
      if String.eqb message "exit" then
        ([ask_message; Printed "Exiting the simulation..."], Returned)
      else if negb (existsb (String.eqb message) ["0"; "1"]) then
        let (out, e) := main_loop rest in
        (ask_message :: Printed "Invalid input. Please enter '0' or '1'." :: out, e)
      else
        let (ran, r) := simulate_communication [message] in
        match r with
        | Raise e => (ask_message :: ran, Uncaught e)
        | Ok _ =>
            match rest with
            | [] => (ask_message :: ran ++ [ask_more], EOFError)
            | more_messages :: rest' =>
                if negb (String.eqb (lower more_messages) "yes") then
                  (ask_message :: ran
                     ++ [ask_more; Printed "Exiting the simulation..."],
                   Returned)
                else
                  let (out, e) := main_loop rest' in
                  (ask_message :: ran ++ ask_more :: out, e)
            end
        end
  end.

(** Lines 101-125. *)
Definition main (inputs : list string) : list event * ending :=
  let (out, e) := main_loop inputs in
  (Printed "Welcome to the Quantum Digital Signature Simulator!" :: out, e).

End Communication.

(* ================================================================= *)
(** ** QRNG.py: the random number generator *)

Section RandomNumber.
Context {T : Type}.

(** [Statevector.from_instruction(qc).probabilities_dict()] of the circuit
    library and [np.random.choice] of the numeric library are arguments;
    each of them returns or raises. *)
Variable probabilities_dict :
  QuantumCircuit -> result exn (list (string * T)).
Variable random_choice : list string -> list T -> result exn string.


End RandomNumber.

(* ================================================================= *)
(** ** The properties of the design document, as predicates

    The two pair rules of section 4.2 in the document's words, as relations
    between the vector before and after a gate: basis states [i] (bit [q]
    clear) and [i + 2^q] differ only in bit [q]. *)

Definition hadamard_pairs (q : nat) (old new : list R) : Prop :=
  forall i, (i + 2 ^ q < length old)%nat -> Nat.testbit i q = false ->
    nth i new 0%R = ((nth i old 0 + nth (i + 2 ^ q) old 0) / sqrt 2)%R /\
    nth (i + 2 ^ q) new 0%R = ((nth i old 0 - nth (i + 2 ^ q) old 0) / sqrt 2)%R.

Definition controlled_x_swaps (c t : nat) (old new : list R) : Prop :=
  forall i, (i < length old)%nat ->
    nth i new 0%R =
    if Nat.testbit i c then nth (Nat.lxor i (2 ^ t)) old 0%R else nth i old 0%R.

(** [|x - target| <= 1e-9] in binary64; as in Python, the literal [1e-9]
    stands for the nearest binary64 number. *)
#[local] Set Warnings "-inexact-float".
Definition close_to (target x : float) : bool :=
  PrimFloat.leb (PrimFloat.abs (PrimFloat.sub x target)) 1e-9%float.

(** The gate names of a circuit, in order. *)
Definition names (qc : QuantumCircuit) : list string :=
  map (fun inst => name (operation inst)) (data qc).

(** The events that print the line [s]. *)
Definition prints (s : string) (e : event) : bool :=
  match e with
  | Printed line => String.eqb line s
  | _ => false
  end.

(** The events that print a text that starts with "Error:". *)
Definition prints_error (e : event) : bool :=
  match e with
  | Printed line => String.eqb (String.substring 0 6 line) "Error:"
  | _ => false
  end.

(** [message in ['0', '1']] *)
Definition valid_message (message : string) : bool :=
  existsb (String.eqb message) ["0"; "1"].

(** The circuit [generate_signature] returns for the message [m]. *)
Abbreviation signature_of m :=
  (measure (cx (h (if String.eqb m "1" then x (mkCircuit 2 1 []) 0
                   else mkCircuit 2 1 []) 1) 0 1) 1 0).

(** What one turn of [simulate_communication] writes for the message [m]
    when its first line can be written: the valid message with its drawing
    and verdict, or with the error line of a drawing that cannot be
    encoded; any other message with the error line of [generate_signature]. *)
Abbreviation turn_events stdout_encodes drawing encode_error m :=
  (Printed ("Alice's message: " ++ m)%string
     :: (if valid_message m
         then Printed "Quantum Circuit for Signature Generation:"
                :: (if encodable stdout_encodes (drawing (signature_of m))
                    then [Drew (signature_of m);
                          Printed "Verification result: 0";
                          Printed "Verification failed!"]
                    else [Printed ("Error: "
                                   ++ encode_error (drawing (signature_of m)))%string])
         else [Printed "Error: Message must be '0' or '1'."])).

(* ================================================================= *)
(** * Proofs *)

(** ** Circuits and names *)

Lemma any_named_names (qc : QuantumCircuit) (nm : string) :
  any_named qc nm = existsb (fun s => String.eqb (lower s) nm) (names qc).
Proof.
  unfold any_named, names.
  induction (data qc) as [|inst l IH]; simpl; [reflexivity|].
  now rewrite IH.
Qed.

Lemma any_named_same_names (qc qc' : QuantumCircuit) (nm : string) :
  names qc = names qc' -> any_named qc nm = any_named qc' nm.
Proof. intros E. now rewrite !any_named_names, E. Qed.

Lemma existsb_Permutation {A : Type} (f : A -> bool) (l l' : list A) :
  Permutation l l' -> existsb f l = existsb f l'.
Proof.
  induction 1 as [| a l l' _ IH | a b l | l l' l'' _ IH1 _ IH2]; simpl.
  - reflexivity.
  - now rewrite IH.
  - destruct (f a), (f b); reflexivity.
  - congruence.
Qed.

Lemma any_named_Permutation (qc qc' : QuantumCircuit) (nm : string) :
  Permutation (data qc) (data qc') -> any_named qc nm = any_named qc' nm.
Proof. intros P. unfold any_named. now apply existsb_Permutation. Qed.

Lemma any_named_append (qc : QuantumCircuit) (g nm : string) (qs cs : list nat) :
  any_named (qc_append qc g qs cs) nm
  = (any_named qc nm || String.eqb (lower g) nm)%bool.
Proof.
  unfold any_named, qc_append; simpl.
  rewrite existsb_app; simpl. now rewrite orb_false_r.
Qed.

(** The simulator reads a circuit through three flags only. *)
Lemma simulate_flags {T : Type} `{Scalar T} (qc qc' : QuantumCircuit) :
  any_named qc "x" = any_named qc' "x" ->
  any_named qc "h" = any_named qc' "h" ->
  any_named qc "cx" = any_named qc' "cx" ->
  after_x qc = after_x qc' /\ after_h qc = after_h qc' /\
  after_cx qc = after_cx qc' /\
  simulate_quantum_circuit qc = simulate_quantum_circuit qc'.
Proof.
  intros Ex Eh Ec.
  unfold simulate_quantum_circuit, after_cx, after_h, after_x.
  now rewrite Ex, Eh, Ec.
Qed.

(** ** The three blocks on vectors of four entries *)

Lemma length_after_h {T : Type} `{Scalar T} (qc : QuantumCircuit) :
  length (after_h qc) = 4%nat.
Proof.
  unfold after_h, after_x.
  destruct (any_named qc "x"), (any_named qc "h"); reflexivity.
Qed.

Lemma apply_cx_total {T : Type} `{Scalar T} (v : list T) :
  length v = 4%nat -> exists v', apply_cx v = Ok v' /\ length v' = 4%nat.
Proof.
  destruct v as [|a [|b [|c [|d [|e v]]]]]; try discriminate. intros _.
  unfold apply_cx; simpl.
  destruct (s_eqb b s_one); simpl; eexists; split; reflexivity.
Qed.

Lemma simulate_total {T : Type} `{Scalar T} (qc : QuantumCircuit) :
  exists st, after_cx qc = Ok st /\ simulate_quantum_circuit qc = Ok st /\
             length st = 4%nat.
Proof.
  unfold simulate_quantum_circuit, after_cx.
  destruct (any_named qc "cx").
  - destruct (apply_cx_total (after_h qc) (length_after_h qc)) as (v' & E & L).
    exists v'. rewrite E. auto.
  - exists (after_h qc). simpl. auto using length_after_h.
Qed.

(** ** Real arithmetic around [1/sqrt 2] *)

Local Open Scope R_scope.

Lemma Reqb_eq (a b : R) : a = b -> Reqb a b = true.
Proof. intros E. unfold Reqb. destruct (Req_dec_T a b); congruence. Qed.

Lemma Reqb_neq (a b : R) : a <> b -> Reqb a b = false.
Proof. intros E. unfold Reqb. destruct (Req_dec_T a b); congruence. Qed.

Lemma sqrt2_gt_1 : 1 < sqrt 2.
Proof. rewrite <- sqrt_1 at 1. apply sqrt_lt_1; lra. Qed.

Lemma sqrt2_sqr : sqrt 2 * sqrt 2 = 2.
Proof. apply sqrt_sqrt; lra. Qed.

Lemma inv_sqrt2_pos : 0 < 1 / sqrt 2.
Proof. pose proof sqrt2_gt_1. apply Rdiv_lt_0_compat; lra. Qed.

Lemma inv_sqrt2_lt_1 : 1 / sqrt 2 < 1.
Proof.
  pose proof sqrt2_gt_1 as G.
  apply (Rmult_lt_reg_r (sqrt 2)); [lra|].
  unfold Rdiv. rewrite Rmult_assoc, Rinv_l; lra.
Qed.

Lemma inv_sqrt2_sqr : (1 / sqrt 2) * (1 / sqrt 2) = 1 / 2.
Proof.
  pose proof sqrt2_gt_1 as G. pose proof sqrt2_sqr as S2.
  replace ((1 / sqrt 2) * (1 / sqrt 2)) with (1 / (sqrt 2 * sqrt 2))
    by (field; lra).
  now rewrite S2.
Qed.

(** The H block on real vectors, entry by entry. *)
Lemma apply_h_R (a b : R) (rest : list R) :
  apply_h (a :: b :: rest)
  = [a * (1 / sqrt 2); a * (1 / sqrt 2); b * (1 / sqrt 2); b * (1 / sqrt 2)].
Proof. reflexivity. Qed.

Lemma norm2_R4 (a b c d : R) :
  norm2 [a; b; c; d] = a * a + (b * b + (c * c + (d * d + 0))).
Proof. reflexivity. Qed.

Lemma norm2_apply_h (a b : R) (rest : list R) :
  norm2 (apply_h (a :: b :: rest)) = a * a + b * b.
Proof.
  rewrite apply_h_R, norm2_R4.
  pose proof inv_sqrt2_sqr as Q.
  replace (a * (1 / sqrt 2) * (a * (1 / sqrt 2)))
    with (a * a * ((1 / sqrt 2) * (1 / sqrt 2))) by ring.
  replace (b * (1 / sqrt 2) * (b * (1 / sqrt 2)))
    with (b * b * ((1 / sqrt 2) * (1 / sqrt 2))) by ring.
  rewrite Q. lra.
Qed.

(** The CX block on real vectors of four entries. *)
Lemma apply_cx_R_fires (a c d : R) :
  apply_cx [a; 1; c; d] = Ok [a; 1; 0; c].
Proof.
  unfold apply_cx; simpl. rewrite (Reqb_eq 1 1 eq_refl). reflexivity.
Qed.

Lemma apply_cx_R_skips (v : list R) :
  (1 < length v)%nat -> nth 1 v 0 <> 1 -> apply_cx v = Ok v.
Proof.
  destruct v as [|a [|b v]]; simpl; try lia. intros _ N.
  unfold apply_cx; simpl. now rewrite (Reqb_neq b 1 N).
Qed.

Lemma norm2_apply_cx (v : list R) :
  length v = 4%nat -> norm2 v = 1 ->
  exists v', apply_cx v = Ok v' /\ norm2 v' = 1.
Proof.
  destruct v as [|a [|b [|c [|d [|e v]]]]]; try discriminate. intros _ N.
  destruct (Req_dec_T b 1) as [->|Nb].
  - exists [a; 1; 0; c]. split; [apply apply_cx_R_fires|].
    rewrite norm2_R4 in *. nra.
  - exists [a; b; c; d]. split; [|exact N].
    apply apply_cx_R_skips; simpl; [lia|exact Nb].
Qed.

(** The four states the simulation can be in before the CX block. *)
Lemma after_h_R_cases (qc : QuantumCircuit) :
  after_h (T:=R) qc = [1; 0; 0; 0] \/
  after_h (T:=R) qc = [0; 1; 0; 0] \/
  after_h (T:=R) qc = apply_h [1; 0; 0; 0] \/
  after_h (T:=R) qc = apply_h [0; 1; 0; 0].
Proof.
  unfold after_h, after_x.
  destruct (any_named qc "x"), (any_named qc "h"); simpl; tauto.
Qed.

(* ================================================================= *)
(** ** The signature demo *)

(** The circuits [generate_signature] builds for the two messages. *)
Lemma generate_signature_0 :
  generate_signature "0"
  = Ok (measure (cx (h (mkCircuit 2 1 []) 1) 0 1) 1 0).
Proof. reflexivity. Qed.

Lemma generate_signature_1 :
  generate_signature "1"
  = Ok (measure (cx (h (x (mkCircuit 2 1 []) 0) 1) 0 1) 1 0).
Proof. reflexivity. Qed.

Lemma simulate_signature_0 :
  simulate_quantum_circuit (T:=R) (measure (cx (h (mkCircuit 2 1 []) 1) 0 1) 1 0)
  = Ok [1 * (1 / sqrt 2); 1 * (1 / sqrt 2); 0 * (1 / sqrt 2); 0 * (1 / sqrt 2)].
Proof.
  unfold simulate_quantum_circuit, after_cx, after_h, after_x.
  change (any_named _ "x") with false.
  change (any_named _ "h") with true.
  change (any_named _ "cx") with true.
  cbv iota. change (initial_state (T:=R)) with [1; 0; 0; 0].
  rewrite apply_h_R, apply_cx_R_skips; [reflexivity | simpl; lia |].
  simpl. pose proof inv_sqrt2_lt_1. lra.
Qed.

Lemma simulate_signature_1 :
  simulate_quantum_circuit (T:=R)
    (measure (cx (h (x (mkCircuit 2 1 []) 0) 1) 0 1) 1 0)
  = Ok [0 * (1 / sqrt 2); 0 * (1 / sqrt 2); 1 * (1 / sqrt 2); 1 * (1 / sqrt 2)].
Proof.
  unfold simulate_quantum_circuit, after_cx, after_h, after_x.
  change (any_named _ "x") with true.
  change (any_named _ "h") with true.
  change (any_named _ "cx") with true.
  cbv iota. change (apply_x (T:=R) initial_state) with [0; 1; 0; 0].
  rewrite apply_h_R, apply_cx_R_skips; [reflexivity | simpl; lia |].
  simpl. lra.
Qed.

(** C4. For both valid messages, '0' and '1', verifying the generated
    signature circuit returns '0': the entry [state[3]] the check compares
    with 1 is at most [1/sqrt 2] (exact arithmetic), and the binary64 run
    returns '0' as well. *)
Theorem verify_generated_signature_returns_0 (m : string) :
  In m ["0"; "1"]%string ->
  exists qc st,
    generate_signature m = Ok qc /\
    simulate_quantum_circuit (T:=R) qc = Ok st /\
    nth 3 st 0 <= 1 / sqrt 2 /\
    verify_signature (T:=R) qc = Ok "0"%string /\
    verify_signature (T:=float) qc = Ok "0"%string.
Proof.
  pose proof inv_sqrt2_lt_1 as L. pose proof inv_sqrt2_pos as P.
  intros [<- | [<- | []]].
  - eexists; eexists. split; [apply generate_signature_0|].
    split; [apply simulate_signature_0|].
    split; [simpl; lra|]. split.
    + unfold verify_signature. rewrite simulate_signature_0. simpl.
      rewrite Reqb_neq; [reflexivity | lra].
    + vm_compute. reflexivity.
  - eexists; eexists. split; [apply generate_signature_1|].
    split; [apply simulate_signature_1|].
    split; [simpl; lra|]. split.
    + unfold verify_signature. rewrite simulate_signature_1. simpl.
      rewrite Reqb_neq; [reflexivity | lra].
    + vm_compute. reflexivity.
Qed.

Lemma verify_generated_signature_witness :
  In "1"%string ["0"; "1"]%string /\
  exists qc st,
    generate_signature "1" = Ok qc /\
    simulate_quantum_circuit (T:=R) qc = Ok st /\
    nth 3 st 0 <= 1 / sqrt 2 /\
    verify_signature (T:=R) qc = Ok "0"%string /\
    verify_signature (T:=float) qc = Ok "0"%string.
Proof.
  assert (I1 : In "1"%string ["0"; "1"]%string)
    by (simpl; right; left; reflexivity).
  split; [exact I1|].
  exact (verify_generated_signature_returns_0 "1" I1).
Defined.

(* ================================================================= *)
(** ** Normalization *)

(** The binary64 runs: for each of the eight combinations of the three
    flags the squared magnitudes after every block sum to 1 within 1e-9. *)
Lemma normalization_binary64 (qc : QuantumCircuit) :
  close_to 1 (norm2 (after_x (T:=float) qc)) = true /\
  close_to 1 (norm2 (apply_h (after_x (T:=float) qc))) = true /\
  close_to 1 (norm2 (after_h (T:=float) qc)) = true /\
  exists st, simulate_quantum_circuit (T:=float) qc = Ok st /\
             close_to 1 (norm2 st) = true.
Proof.
  unfold simulate_quantum_circuit, after_cx, after_h, after_x.
  destruct (any_named qc "x"), (any_named qc "h"), (any_named qc "cx");
    (split; [vm_compute; reflexivity|]);
    (split; [vm_compute; reflexivity|]);
    (split; [vm_compute; reflexivity|]);
    eexists; (split; [vm_compute; reflexivity|]); vm_compute; reflexivity.
Qed.

(** C1.  Every gate block sends an amplitude vector whose squared
    magnitudes sum to 1 to such a vector: the X and the CX block every
    4-entry vector, the H block every vector it can be given, which is the
    state after the X block of a circuit (and, more generally, every vector
    with entries 2 and 3 zero).  So in [simulate_quantum_circuit] the sum is
    1 at the start and after every gate block, for every circuit: exactly
    over the reals and within 1e-9 in binary64. *)
Theorem normalization_preserved (qc : QuantumCircuit) (v : list R) :
  length v = 4%nat -> norm2 v = 1 ->
  (* the X and the CX block, on the vector [v] *)
  norm2 (apply_x v) = 1 /\
  (exists v', apply_cx v = Ok v' /\ norm2 v' = 1) /\
  (* the H block, on the state it is given in the simulation of [qc] *)
  norm2 (apply_h (after_x (T:=R) qc)) = 1 /\
  (nth 2 v 0 = 0 -> nth 3 v 0 = 0 -> norm2 (apply_h v) = 1) /\
  (* the simulation of [qc], block after block *)
  norm2 (initial_state (T:=R)) = 1 /\
  norm2 (after_x (T:=R) qc) = 1 /\
  norm2 (after_h (T:=R) qc) = 1 /\
  (exists st, after_cx (T:=R) qc = Ok st /\
              simulate_quantum_circuit qc = Ok st /\ norm2 st = 1) /\
  close_to 1 (norm2 (after_x (T:=float) qc)) = true /\
  close_to 1 (norm2 (apply_h (after_x (T:=float) qc))) = true /\
  close_to 1 (norm2 (after_h (T:=float) qc)) = true /\
  (exists st, simulate_quantum_circuit (T:=float) qc = Ok st /\
              close_to 1 (norm2 st) = true).
Proof.
  intros L N.
  assert (Nx : norm2 (after_x (T:=R) qc) = 1).
  { unfold after_x. destruct (any_named qc "x"); simpl; lra. }
  assert (Nxh : norm2 (apply_h (after_x (T:=R) qc)) = 1).
  { unfold after_x. destruct (any_named qc "x").
    - change (apply_x (T:=R) initial_state) with [0; 1; 0; 0].
      rewrite norm2_apply_h. lra.
    - change (initial_state (T:=R)) with [1; 0; 0; 0].
      rewrite norm2_apply_h. lra. }
  assert (Nh : norm2 (after_h (T:=R) qc) = 1).
  { unfold after_h. now destruct (any_named qc "h"). }
  split; [simpl; lra|].
  split; [now apply norm2_apply_cx|].
  split; [exact Nxh|].
  split.
  { destruct v as [|a [|b [|c [|d [|e v]]]]]; try discriminate.
    simpl nth. intros -> ->. rewrite norm2_apply_h.
    rewrite norm2_R4 in N. lra. }
  split; [simpl; lra|].
  split; [exact Nx|]. split; [exact Nh|].
  split.
  { unfold simulate_quantum_circuit, after_cx.
    destruct (any_named qc "cx").
    - destruct (norm2_apply_cx (after_h qc) (length_after_h qc) Nh)
        as (v' & E & N').
      exists v'. rewrite E. auto.
    - exists (after_h qc). simpl. auto. }
  apply normalization_binary64.
Qed.

Lemma normalization_preserved_witness :
  length [1; 0; 0; 0] = 4%nat /\ norm2 [1; 0; 0; 0] = 1 /\
  norm2 (apply_x [1; 0; 0; 0]) = 1 /\
  norm2 (apply_h (after_x (T:=R) (cx (h (x (mkCircuit 2 1 []) 0) 1) 0 1))) = 1 /\
  (exists st, simulate_quantum_circuit (T:=R)
                (cx (h (x (mkCircuit 2 1 []) 0) 1) 0 1) = Ok st /\
              norm2 st = 1).
Proof.
  assert (L : length [1; 0; 0; 0] = 4%nat) by reflexivity.
  assert (N : norm2 [1; 0; 0; 0] = 1) by (simpl; lra).
  split; [exact L|]. split; [exact N|].
  destruct (normalization_preserved
              (cx (h (x (mkCircuit 2 1 []) 0) 1) 0 1) [1; 0; 0; 0] L N)
    as (Hx & _ & Hh & _ & _ & _ & _ & (st & _ & E & Nst) & _).
  split; [exact Hx|]. split; [exact Hh|].
  exists st. split; [exact E | exact Nst].
Defined.

(* ================================================================= *)
(** ** The gate blocks against the pair rules *)

(** Changing the operands of the last instruction changes nothing. *)
Lemma simulate_append_operands {T : Type} `{Scalar T}
      (qc : QuantumCircuit) (g : string) (qs cs qs' cs' : list nat) :
  simulate_quantum_circuit (qc_append qc g qs cs)
  = simulate_quantum_circuit (qc_append qc g qs' cs').
Proof.
  apply simulate_flags; now rewrite !any_named_append.
Qed.

(** C2, as stated, fails.  In the circuit of message '1' (X on qubit 0, H on
    qubit 1) the H block receives [0, 1, 0, 0] and returns
    [0, 0, 1/sqrt 2, 1/sqrt 2]; the pair rule holds neither for qubit 1, the
    operand of the instruction (entry 1 should be [(1 + 0)/sqrt 2]), nor for
    qubit 0 (entry 0 should be [(0 + 1)/sqrt 2]). *)
Lemma hadamard_block_breaks_pair_rule :
  after_x (T:=R) (h (x (mkCircuit 2 1 []) 0) 1) = [0; 1; 0; 0] /\
  after_h (T:=R) (h (x (mkCircuit 2 1 []) 0) 1) = apply_h [0; 1; 0; 0] /\
  ~ hadamard_pairs 1 [0; 1; 0; 0] (apply_h [0; 1; 0; 0]) /\
  ~ hadamard_pairs 0 [0; 1; 0; 0] (apply_h [0; 1; 0; 0]).
Proof.
  pose proof inv_sqrt2_pos as P.
  split; [reflexivity|]. split; [reflexivity|].
  rewrite apply_h_R. split; intros Hp.
  - destruct (Hp 1%nat) as [E _]; [simpl; lia | reflexivity |].
    simpl in E. lra.
  - destruct (Hp 0%nat) as [E _]; [simpl; lia | reflexivity |].
    simpl in E. lra.
Qed.

(** C2, amended.  The H block takes no qubit position (a circuit gives the
    same result whatever qubit its [h] names) and is written for a second
    qubit in state 0: of every vector it reads entries 0 and 1 only, and for
    [a_i = state[i]] it writes the pair [(a_i + 0)/sqrt 2] and
    [(a_i - 0)/sqrt 2] to entries [2i] and [2i + 1].  On a vector with entry 0
    alone this is the pair rule for qubit 0. *)
Theorem hadamard_block_action
        (a b : R) (rest : list R) (qc : QuantumCircuit) (q q' : nat) :
  apply_h (a :: b :: rest)
  = [(a + 0) / sqrt 2; (a - 0) / sqrt 2; (b + 0) / sqrt 2; (b - 0) / sqrt 2] /\
  hadamard_pairs 0 [a; 0; 0; 0] (apply_h [a; 0; 0; 0]) /\
  simulate_quantum_circuit (T:=R) (h qc q)
  = simulate_quantum_circuit (T:=R) (h qc q').
Proof.
  pose proof sqrt2_gt_1 as G.
  split; [|split].
  - rewrite apply_h_R.
    replace ((a + 0) / sqrt 2) with (a * (1 / sqrt 2)) by (field; lra).
    replace ((a - 0) / sqrt 2) with (a * (1 / sqrt 2)) by (field; lra).
    replace ((b + 0) / sqrt 2) with (b * (1 / sqrt 2)) by (field; lra).
    replace ((b - 0) / sqrt 2) with (b * (1 / sqrt 2)) by (field; lra).
    reflexivity.
  - rewrite apply_h_R. intros i Hi Hb.
    destruct i as [|[|[|i]]]; simpl in Hi, Hb; try discriminate; try lia;
      simpl; split; field; lra.
  - apply simulate_append_operands.
Qed.

(** C3, as stated, fails, for the control and target of the demo,
    [cx(0, 1)].  Before the CX block the circuit of message '0' is in the
    state [1/sqrt 2, 1/sqrt 2, 0, 0], and the circuit X, CX in [0, 1, 0, 0];
    the block returns both as they are, while the rule moves the amplitude of
    entry 1 (control bit 1) to entry 3. *)
Lemma controlled_x_block_breaks_swap_rule :
  apply_cx (apply_h [1; 0; 0; 0]) = Ok (apply_h [1; 0; 0; 0]) /\
  ~ controlled_x_swaps 0 1 (apply_h [1; 0; 0; 0]) (apply_h [1; 0; 0; 0]) /\
  after_h (T:=R) (cx (x (mkCircuit 2 1 []) 0) 0 1) = [0; 1; 0; 0] /\
  apply_cx [0; 1; 0; 0] = Ok [0; 1; 0; 0] /\
  ~ controlled_x_swaps 0 1 [0; 1; 0; 0] [0; 1; 0; 0].
Proof.
  pose proof inv_sqrt2_pos as P. pose proof inv_sqrt2_lt_1 as L.
  split; [|split; [|split; [|split]]].
  - rewrite apply_h_R. apply apply_cx_R_skips; simpl; [lia | lra].
  - rewrite apply_h_R. intros Hs.
    specialize (Hs 1%nat ltac:(simpl; lia)). simpl in Hs. lra.
  - reflexivity.
  - apply apply_cx_R_fires.
  - intros Hs. specialize (Hs 1%nat ltac:(simpl; lia)). simpl in Hs. lra.
Qed.

(** C3, amended.  The CX block takes no control and no target (a circuit
    gives the same result whatever qubits its [cx] names) and acts only when
    entry 1 is exactly 1: every vector whose entry 1 is not 1 is returned as
    it is, so every amplitude, of a basis state with control bit 0 or 1, is
    unchanged. *)
Theorem controlled_x_block_guard
        (v : list R) (qc : QuantumCircuit) (c t c' t' : nat) :
  (1 < length v)%nat -> nth 1 v 0 <> 1 ->
  apply_cx v = Ok v /\
  simulate_quantum_circuit (T:=R) (cx qc c t)
  = simulate_quantum_circuit (T:=R) (cx qc c' t').
Proof.
  intros L N. split.
  - now apply apply_cx_R_skips.
  - apply simulate_append_operands.
Qed.

Lemma controlled_x_block_guard_witness :
  (1 < length [1; 0; 0; 0])%nat /\ nth 1 [1; 0; 0; 0] 0 <> 1 /\
  apply_cx [1; 0; 0; 0] = Ok [1; 0; 0; 0] /\
  simulate_quantum_circuit (T:=R) (cx (mkCircuit 2 1 []) 0 1)
  = simulate_quantum_circuit (T:=R) (cx (mkCircuit 2 1 []) 1 0).
Proof.
  assert (L : (1 < length [1; 0; 0; 0])%nat) by (simpl; lia).
  assert (N : nth 1 [1; 0; 0; 0] 0 <> 1) by (simpl; lra).
  split; [exact L|]. split; [exact N|].
  exact (controlled_x_block_guard [1; 0; 0; 0] (mkCircuit 2 1 []) 0 1 1 0 L N).
Defined.

(** C5, as stated, fails: the X block applied twice to the initial state
    [1, 0, 0, 0] gives [0, 1, 0, 0], and so does the simulation of a circuit
    with two X gates on qubit 0, which should be back in [1, 0, 0, 0]. *)
Lemma pauli_x_block_not_involutive :
  apply_x (apply_x [1; 0; 0; 0]) = [0; 1; 0; 0] /\
  apply_x (apply_x [1; 0; 0; 0]) <> [1; 0; 0; 0] /\
  simulate_quantum_circuit (T:=R) (x (x (mkCircuit 2 1 []) 0) 0)
  = Ok [0; 1; 0; 0].
Proof.
  split; [reflexivity|]. split; [|reflexivity].
  intros E. injection E as E. lra.
Qed.

(** C5, amended.  The X block is idempotent, not an involution: it sets the
    state to [0, 1, 0, 0] whatever the vector and the qubit, so applying it
    twice gives what applying it once gives, and a circuit with X twice
    simulates as the circuit with X once. *)
Theorem pauli_x_block_idempotent
        (v : list R) (qc : QuantumCircuit) (q q' : nat) :
  apply_x v = [0; 1; 0; 0] /\
  apply_x (apply_x v) = apply_x v /\
  simulate_quantum_circuit (T:=R) (x (x qc q) q')
  = simulate_quantum_circuit (T:=R) (x qc q).
Proof.
  split; [reflexivity|]. split; [reflexivity|].
  apply simulate_flags; unfold x; rewrite !any_named_append; simpl;
    now rewrite ?orb_false_r, ?orb_true_r.
Qed.

(* ================================================================= *)
(** ** Gate order, qubit count and qubit operands *)

(** The blocks themselves do not commute; the simulation never runs them in
    another order than X, H, CX. *)
Lemma blocks_do_not_commute :
  apply_h (apply_x [1; 0; 0; 0]) <> apply_x (apply_h [1; 0; 0; 0]).
Proof.
  pose proof inv_sqrt2_pos as P.
  change (apply_x [1; 0; 0; 0]) with [0; 1; 0; 0].
  change (apply_x (apply_h [1; 0; 0; 0])) with [0; 1; 0; 0].
  rewrite apply_h_R. intros E. injection E as _ _ E _. lra.
Qed.

Lemma simulate_Permutation {T : Type} `{Scalar T} (qc1 qc2 : QuantumCircuit) :
  Permutation (data qc1) (data qc2) ->
  simulate_quantum_circuit qc1 = simulate_quantum_circuit qc2.
Proof.
  intros P. apply simulate_flags; now apply any_named_Permutation.
Qed.

(** C6, as stated, fails: no two circuits with the same gates in different
    orders simulate to different vectors; H before X gives what X before H
    gives. *)
Lemma no_order_sensitive_circuits :
  ~ (exists qc1 qc2 : QuantumCircuit,
        Permutation (data qc1) (data qc2) /\
        simulate_quantum_circuit (T:=R) qc1
        <> simulate_quantum_circuit (T:=R) qc2) /\
  simulate_quantum_circuit (T:=R) (x (h (mkCircuit 2 1 []) 1) 0)
  = simulate_quantum_circuit (T:=R) (h (x (mkCircuit 2 1 []) 0) 1).
Proof.
  split.
  - intros (qc1 & qc2 & P & N). apply N. now apply simulate_Permutation.
  - reflexivity.
Qed.

(** C6, amended.  The simulation is order-insensitive: it reads a circuit as
    the set of its gate names and runs the blocks in the fixed order X, H,
    CX, so two circuits with the same instructions in different orders
    simulate to the same vector. *)
Theorem simulation_order_insensitive
        {T : Type} `{Scalar T} (qc1 qc2 : QuantumCircuit) :
  Permutation (data qc1) (data qc2) ->
  after_x qc1 = after_x qc2 /\ after_h qc1 = after_h qc2 /\
  simulate_quantum_circuit qc1 = simulate_quantum_circuit qc2.
Proof.
  intros P.
  destruct (simulate_flags qc1 qc2) as (Ex & Eh & _ & Es);
    try now apply any_named_Permutation.
  auto.
Qed.

Lemma simulation_order_insensitive_witness :
  Permutation (data (x (h (mkCircuit 2 1 []) 1) 0))
              (data (h (x (mkCircuit 2 1 []) 0) 1)) /\
  simulate_quantum_circuit (T:=float) (x (h (mkCircuit 2 1 []) 1) 0)
  = simulate_quantum_circuit (T:=float) (h (x (mkCircuit 2 1 []) 0) 1).
Proof.
  assert (P : Permutation (data (x (h (mkCircuit 2 1 []) 1) 0))
                          (data (h (x (mkCircuit 2 1 []) 0) 1)))
    by (simpl; apply perm_swap).
  split; [exact P|].
  exact (proj2 (proj2 (simulation_order_insensitive (T:=float) _ _ P))).
Defined.

(** C7, as stated, fails: the simulator starts a circuit of 3 qubits, and
    one of 1 qubit, from the 4-entry vector [1, 0, 0, 0], and a circuit of 0
    qubits is simulated, to the same vector, without an error. *)
Lemma initial_state_ignores_qubit_count :
  simulate_quantum_circuit (T:=R) (mkCircuit 3 0 []) = Ok [1; 0; 0; 0] /\
  length [1; 0; 0; 0] <> (2 ^ 3)%nat /\
  simulate_quantum_circuit (T:=R) (mkCircuit 1 0 []) = Ok [1; 0; 0; 0] /\
  length [1; 0; 0; 0] <> (2 ^ 1)%nat /\
  simulate_quantum_circuit (T:=R) (mkCircuit 0 0 []) = Ok [1; 0; 0; 0].
Proof.
  repeat split; try reflexivity; simpl; lia.
Qed.

(** C7, amended.  State initialization is fixed to two qubits: whatever the
    qubit count [n] of the circuit, the simulation starts from the vector of
    length [2^2] with amplitude 1 at index 0 and 0 at every other index (a
    circuit without gates returns it), and no circuit makes the simulator
    fail. *)
Theorem initial_state_two_qubits
        (n c i : nat) (qc : QuantumCircuit) :
  simulate_quantum_circuit (T:=R) (mkCircuit n c []) = Ok initial_state /\
  length (initial_state (T:=R)) = (2 ^ 2)%nat /\
  nth 0 (initial_state (T:=R)) 0 = 1 /\
  nth (S i) (initial_state (T:=R)) 0 = 0 /\
  exists st, simulate_quantum_circuit (T:=R) qc = Ok st.
Proof.
  split; [reflexivity|]. split; [reflexivity|]. split; [reflexivity|].
  split.
  - destruct i as [|[|[|[|i]]]]; reflexivity.
  - destruct (simulate_total (T:=R) qc) as (st & _ & E & _). now exists st.
Qed.

(** C8, as stated, fails: a circuit of 3 qubits with H on qubit 2, an index
    outside the two qubits of the simulated vector, is simulated without an
    error, and the gate is applied: the result is not the initial vector. *)
Lemma out_of_range_qubit_is_applied :
  simulate_quantum_circuit (T:=R) (h (mkCircuit 3 0 []) 2)
  = Ok [1 * (1 / sqrt 2); 1 * (1 / sqrt 2); 0 * (1 / sqrt 2); 0 * (1 / sqrt 2)] /\
  (forall e, simulate_quantum_circuit (T:=R) (h (mkCircuit 3 0 []) 2)
             <> Raise e) /\
  simulate_quantum_circuit (T:=R) (h (mkCircuit 3 0 []) 2)
  <> Ok [1; 0; 0; 0].
Proof.
  pose proof inv_sqrt2_lt_1 as L.
  assert (E : simulate_quantum_circuit (T:=R) (h (mkCircuit 3 0 []) 2)
              = Ok [1 * (1 / sqrt 2); 1 * (1 / sqrt 2);
                    0 * (1 / sqrt 2); 0 * (1 / sqrt 2)]) by reflexivity.
  split; [exact E|]. rewrite E. split.
  - intros e; discriminate.
  - intros Q. injection Q as Q _. lra.
Qed.

(** C8, amended.  The simulator never reads a qubit index and never fails:
    two circuits with the same gate names in the same order, whatever their
    qubit counts and operands, in range or not, simulate to the same vector,
    and the simulation of every circuit returns a vector of four entries. *)
Theorem simulation_ignores_qubit_indices
        {T : Type} `{Scalar T} (qc qc' : QuantumCircuit) :
  names qc = names qc' ->
  simulate_quantum_circuit qc = simulate_quantum_circuit qc' /\
  exists st, simulate_quantum_circuit qc = Ok st /\ length st = 4%nat.
Proof.
  intros E. split.
  - apply simulate_flags; now apply any_named_same_names.
  - destruct (simulate_total qc) as (st & _ & Es & L). now exists st.
Qed.

Lemma simulation_ignores_qubit_indices_witness :
  names (h (mkCircuit 2 1 []) 1) = names (h (mkCircuit 3 0 []) 7) /\
  simulate_quantum_circuit (T:=float) (h (mkCircuit 2 1 []) 1)
  = simulate_quantum_circuit (T:=float) (h (mkCircuit 3 0 []) 7).
Proof.
  assert (E : names (h (mkCircuit 2 1 []) 1) = names (h (mkCircuit 3 0 []) 7))
    by reflexivity.
  split; [exact E|].
  exact (proj1 (simulation_ignores_qubit_indices (T:=float) _ _ E)).
Defined.

(* ================================================================= *)
(** ** The coin toss *)

Lemma coin_statevector_R :
  Design.statevector (T:=R) 1 [Design.Hadamard 0]
  = Ok [((1 + 0) / sqrt 2, (0 + 0) / sqrt 2);
        ((1 - 0) / sqrt 2, (0 - 0) / sqrt 2)].
Proof. reflexivity. Qed.

Lemma coin_probabilities_R :
  Design.extract_probabilities
    [((1 + 0) / sqrt 2, (0 + 0) / sqrt 2); ((1 - 0) / sqrt 2, (0 - 0) / sqrt 2)]
  = [("0"%string, 1 / 2); ("1"%string, 1 / 2)].
Proof.
  pose proof sqrt2_gt_1 as G. pose proof inv_sqrt2_sqr as Q.
  assert (E0 : Design.c_norm2 ((1 + 0) / sqrt 2, (0 + 0) / sqrt 2) = 1 / 2).
  { unfold Design.c_norm2; simpl. rewrite <- Q. field. lra. }
  assert (E1 : Design.c_norm2 ((1 - 0) / sqrt 2, (0 - 0) / sqrt 2) = 1 / 2).
  { unfold Design.c_norm2; simpl. rewrite <- Q. field. lra. }
  change (Design.extract_probabilities
            [((1 + 0) / sqrt 2, (0 + 0) / sqrt 2);
             ((1 - 0) / sqrt 2, (0 - 0) / sqrt 2)])
    with [("0"%string, Design.c_norm2 ((1 + 0) / sqrt 2, (0 + 0) / sqrt 2));
          ("1"%string, Design.c_norm2 ((1 - 0) / sqrt 2, (0 - 0) / sqrt 2))].
  now rewrite E0, E1.
Qed.

(** C10.  The coin toss, one qubit with a Hadamard on qubit 0 from the
    all-zero state, has the probability map {'0': 0.5, '1': 0.5}: exactly
    over the reals, and within 1e-9 of 0.5 for both labels in binary64.  The
    sampler is given the labels '0', '1' with these weights, and the map is
    returned with the face it draws. *)
Theorem coin_toss_probability_map
        (choice_R : list string -> list R -> result Design.error string)
        (choice_f : list string -> list float -> result Design.error string) :
  quantum_coin_toss choice_R
  = (toss <- choice_R ["0"; "1"]%string [1 / 2; 1 / 2] ;;
     Ok (if String.eqb toss "0" then "Heads"%string else "Tails"%string,
         [("0"%string, 1 / 2); ("1"%string, 1 / 2)])) /\
  exists p0 p1 : float,
    close_to 0.5 p0 = true /\ close_to 0.5 p1 = true /\
    quantum_coin_toss choice_f
    = (toss <- choice_f ["0"; "1"]%string [p0; p1] ;;
       Ok (if String.eqb toss "0" then "Heads"%string else "Tails"%string,
           [("0"%string, p0); ("1"%string, p1)])).
Proof.
  split.
  - unfold quantum_coin_toss. rewrite coin_statevector_R.
    unfold bind at 1. rewrite coin_probabilities_R. cbv zeta. simpl map.
    destruct (choice_R _ _) as [toss|e]; simpl; [|reflexivity].
    destruct (String.eqb toss "0"); reflexivity.
  - pose (p0 := Design.c_norm2 (T:=float)
                 (Design.c_div_sqrt2 (Design.c_add Design.c_one Design.c_zero))).
    pose (p1 := Design.c_norm2 (T:=float)
                 (Design.c_div_sqrt2 (Design.c_sub Design.c_one Design.c_zero))).
    exists p0, p1.
    split; [vm_compute; reflexivity|]. split; [vm_compute; reflexivity|].
    change (quantum_coin_toss choice_f)
      with (toss <- choice_f ["0"; "1"]%string [p0; p1] ;;
            if String.eqb toss "0"
            then Ok ("Heads"%string, [("0"%string, p0); ("1"%string, p1)])
            else Ok ("Tails"%string, [("0"%string, p0); ("1"%string, p1)])).
    destruct (choice_f _ _) as [toss|e]; simpl; [|reflexivity].
    destruct (String.eqb toss "0"); reflexivity.
Qed.

(** The general simulator on the other scenarios of the design document
    (section 8), in binary64: three Hadamards give eight equal weights, X
    gives label '1' with weight 1, and X then CX(0, 1) gives label '11'. *)
Example design_three_hadamards :
  exists pm,
    (v <- Design.statevector (T:=float) 3
            [Design.Hadamard 0; Design.Hadamard 1; Design.Hadamard 2] ;;
     Ok (Design.extract_probabilities v)) = Ok pm /\
    map fst pm = ["000"; "001"; "010"; "011"; "100"; "101"; "110"; "111"]%string /\
    forallb (close_to 0.125) (map snd pm) = true.
Proof. eexists. split; [vm_compute; reflexivity|]. split; vm_compute; reflexivity. Qed.

Example design_bit_flip :
  (v <- Design.statevector (T:=float) 1 [Design.PauliX 0] ;;
   Ok (Design.extract_probabilities v))
  = Ok [("0"%string, 0%float); ("1"%string, 1%float)].
Proof. vm_compute. reflexivity. Qed.

Example design_controlled_x :
  (v <- Design.statevector (T:=float) 2 [Design.PauliX 0; Design.ControlledX 0 1] ;;
   Ok (Design.extract_probabilities v))
  = Ok [("00"%string, 0%float); ("01"%string, 0%float);
        ("10"%string, 0%float); ("11"%string, 1%float)].
Proof. vm_compute. reflexivity. Qed.

Example design_out_of_range :
  Design.apply_gate (T:=float) [Design.c_one; Design.c_zero] (Design.Hadamard 1)
  = Raise Design.QubitIndexOutOfRange /\
  Design.initialize_state (T:=float) 0 = Raise Design.InvalidQubitCount.
Proof. split; reflexivity. Qed.

(** The general simulator obeys the two pair rules on every vector of two
    qubits with real amplitudes, so the rules can be met; the blocks of
    QDS.py differ from it. *)
Lemma design_hadamard_obeys_pair_rule (a b c d : R) (q : nat) :
  (q < 2)%nat ->
  hadamard_pairs q [a; b; c; d]
    (map fst (Design.hadamard_gate q [(a, 0); (b, 0); (c, 0); (d, 0)])).
Proof.
  intros Hq i Hi Hb.
  destruct q as [|[|q]]; [| |lia];
    destruct i as [|[|[|[|i]]]]; simpl in Hi, Hb;
    try discriminate; try lia; simpl; split; reflexivity.
Qed.

Lemma design_controlled_x_obeys_swap_rule (a b c d : R) (k t : nat) :
  (k < 2)%nat -> (t < 2)%nat ->
  controlled_x_swaps k t [a; b; c; d]
    (map fst (Design.controlled_x_gate k t [(a, 0); (b, 0); (c, 0); (d, 0)])).
Proof.
  intros Hk Ht i Hi.
  destruct k as [|[|k]]; [| |lia]; (destruct t as [|[|t]]; [| |lia]);
    destruct i as [|[|[|[|i]]]]; simpl in Hi; try lia; reflexivity.
Qed.

(* ================================================================= *)
(** * Further properties of the code *)

(** ** The simulator as a table *)

Lemma apply_h_basis0 : apply_h [1; 0; 0; 0] = [1 / sqrt 2; 1 / sqrt 2; 0; 0].
Proof. rewrite apply_h_R. now rewrite Rmult_1_l, Rmult_0_l. Qed.

Lemma apply_h_basis1 : apply_h [0; 1; 0; 0] = [0; 0; 1 / sqrt 2; 1 / sqrt 2].
Proof. rewrite apply_h_R. now rewrite Rmult_1_l, Rmult_0_l. Qed.

Lemma after_h_R_table (qc : QuantumCircuit) :
  after_h (T:=R) qc
  = if any_named qc "h"
    then if any_named qc "x" then [0; 0; 1 / sqrt 2; 1 / sqrt 2]
         else [1 / sqrt 2; 1 / sqrt 2; 0; 0]
    else if any_named qc "x" then [0; 1; 0; 0] else [1; 0; 0; 0].
Proof.
  unfold after_h, after_x.
  destruct (any_named qc "x"), (any_named qc "h"); try reflexivity.
  - apply apply_h_basis1.
  - apply apply_h_basis0.
Qed.

(** In every simulation the CX block returns the state it is given. *)
Lemma after_cx_R (qc : QuantumCircuit) :
  after_cx (T:=R) qc = Ok (after_h qc).
Proof.
  pose proof inv_sqrt2_lt_1 as L.
  unfold after_cx. destruct (any_named qc "cx"); [|reflexivity].
  rewrite after_h_R_table.
  destruct (any_named qc "h"), (any_named qc "x").
  - apply apply_cx_R_skips; simpl; [lia | lra].
  - apply apply_cx_R_skips; simpl; [lia | lra].
  - apply apply_cx_R_fires.
  - apply apply_cx_R_skips; simpl; [lia | lra].
Qed.

Lemma simulate_R_table (qc : QuantumCircuit) :
  simulate_quantum_circuit (T:=R) qc
  = Ok (if any_named qc "h"
        then if any_named qc "x" then [0; 0; 1 / sqrt 2; 1 / sqrt 2]
             else [1 / sqrt 2; 1 / sqrt 2; 0; 0]
        else if any_named qc "x" then [0; 1; 0; 0] else [1; 0; 0; 0]).
Proof.
  unfold simulate_quantum_circuit. rewrite after_cx_R, after_h_R_table.
  reflexivity.
Qed.

Lemma simulate_float_table (qc : QuantumCircuit) :
  simulate_quantum_circuit (T:=float) qc
  = Ok (if any_named qc "h"
        then if any_named qc "x"
             then [0; 0; 1 / PrimFloat.sqrt 2; 1 / PrimFloat.sqrt 2]%float
             else [1 / PrimFloat.sqrt 2; 1 / PrimFloat.sqrt 2; 0; 0]%float
        else if any_named qc "x" then [0; 1; 0; 0]%float
             else [1; 0; 0; 0]%float).
Proof.
  unfold simulate_quantum_circuit, after_cx, after_h, after_x.
  destruct (any_named qc "x"), (any_named qc "h"), (any_named qc "cx");
    vm_compute; reflexivity.
Qed.

Lemma verify_signature_R_0 (qc : QuantumCircuit) :
  verify_signature (T:=R) qc = Ok "0"%string.
Proof.
  pose proof inv_sqrt2_lt_1 as L.
  unfold verify_signature. rewrite simulate_R_table.
  destruct (any_named qc "h"), (any_named qc "x"); simpl;
    rewrite Reqb_neq; try reflexivity; lra.
Qed.

Lemma verify_signature_float_0 (qc : QuantumCircuit) :
  verify_signature (T:=float) qc = Ok "0"%string.
Proof.
  unfold verify_signature. rewrite simulate_float_table.
  destruct (any_named qc "h"), (any_named qc "x"); vm_compute; reflexivity.
Qed.

(** X1.  The simulator is a table over two flags: whether the circuit holds
    an instruction named x, and one named h (names compared in lower case).
    Without h the result is the basis vector [1,0,0,0] or, with x,
    [0,1,0,0]; with h it is [1/sqrt 2, 1/sqrt 2, 0, 0] or, with x,
    [0, 0, 1/sqrt 2, 1/sqrt 2].  Nothing else of the circuit is read, in
    exact arithmetic and in binary64. *)
Theorem simulate_quantum_circuit_table (qc : QuantumCircuit) :
  simulate_quantum_circuit (T:=R) qc
  = Ok (if any_named qc "h"
        then if any_named qc "x" then [0; 0; 1 / sqrt 2; 1 / sqrt 2]
             else [1 / sqrt 2; 1 / sqrt 2; 0; 0]
        else if any_named qc "x" then [0; 1; 0; 0] else [1; 0; 0; 0]) /\
  simulate_quantum_circuit (T:=float) qc
  = Ok (if any_named qc "h"
        then if any_named qc "x"
             then [0; 0; 1 / PrimFloat.sqrt 2; 1 / PrimFloat.sqrt 2]%float
             else [1 / PrimFloat.sqrt 2; 1 / PrimFloat.sqrt 2; 0; 0]%float
        else if any_named qc "x" then [0; 1; 0; 0]%float
             else [1; 0; 0; 0]%float).
Proof. split; [apply simulate_R_table | apply simulate_float_table]. Qed.

(** X2.  A CX gate never changes the simulated state: in every circuit the
    CX block returns the state it receives, so adding a CX gate on any
    qubits to a circuit leaves the result of the simulation as it is. *)
Theorem cx_gate_has_no_effect (qc : QuantumCircuit) (c t : nat) :
  simulate_quantum_circuit (T:=R) qc = Ok (after_h qc) /\
  simulate_quantum_circuit (T:=R) (cx qc c t)
  = simulate_quantum_circuit (T:=R) qc /\
  simulate_quantum_circuit (T:=float) (cx qc c t)
  = simulate_quantum_circuit (T:=float) qc.
Proof.
  split; [|split].
  - unfold simulate_quantum_circuit. now rewrite after_cx_R.
  - rewrite !simulate_R_table. unfold cx. rewrite !any_named_append.
    simpl. now rewrite !orb_false_r.
  - rewrite !simulate_float_table. unfold cx. rewrite !any_named_append.
    simpl. now rewrite !orb_false_r.
Qed.

(** X3.  [verify_signature] returns '0' for every circuit, not only for the
    generated ones: no circuit makes the check [state[3] == 1] succeed, in
    exact arithmetic and in binary64. *)
Theorem verify_signature_rejects_every_circuit (qc : QuantumCircuit) :
  verify_signature (T:=R) qc = Ok "0"%string /\
  verify_signature (T:=float) qc = Ok "0"%string.
Proof. split; [apply verify_signature_R_0 | apply verify_signature_float_0]. Qed.

(** ** What the simulator reads of a circuit *)

Lemma any_named_In (qc : QuantumCircuit) (nm : string) :
  any_named qc nm = true <->
  exists inst, In inst (data qc) /\ lower (name (operation inst)) = nm.
Proof.
  unfold any_named. rewrite existsb_exists.
  split; intros (inst & Hin & E); exists inst; split; auto;
    now apply String.eqb_eq.
Qed.

Lemma any_named_ext (qc qc' : QuantumCircuit) (nm : string) :
  ((exists inst, In inst (data qc) /\ lower (name (operation inst)) = nm) <->
   (exists inst, In inst (data qc') /\ lower (name (operation inst)) = nm)) ->
  any_named qc nm = any_named qc' nm.
Proof.
  intros E. rewrite <- !any_named_In in E.
  destruct (any_named qc nm), (any_named qc' nm); try reflexivity.
  - symmetry. now apply E.
  - now apply E.
Qed.

(** X4.  The simulation reads a circuit as a set of gate names in lower
    case: two circuits in which the same ones of the names x, h and cx occur
    (whatever their order, their number of occurrences, their letter case,
    their operands, their other instructions and their qubit counts)
    simulate to the same result. *)
Theorem simulation_reads_name_set
        {T : Type} `{Scalar T} (qc qc' : QuantumCircuit) :
  (forall nm, In nm ["x"; "h"; "cx"]%string ->
     (exists inst, In inst (data qc) /\ lower (name (operation inst)) = nm) <->
     (exists inst, In inst (data qc') /\ lower (name (operation inst)) = nm)) ->
  simulate_quantum_circuit qc = simulate_quantum_circuit qc'.
Proof.
  intros E.
  apply simulate_flags; apply any_named_ext, E; simpl; auto.
Qed.

Lemma simulation_reads_name_set_witness :
  simulate_quantum_circuit (T:=float)
    (mkCircuit 2 1 [mkInstruction (mkOperation "H") [1%nat] [];
                    mkInstruction (mkOperation "x") [0%nat] []])
  = simulate_quantum_circuit (T:=float)
      (mkCircuit 5 0 [mkInstruction (mkOperation "x") [3%nat] [];
                      mkInstruction (mkOperation "barrier") [] [];
                      mkInstruction (mkOperation "x") [0%nat] [];
                      mkInstruction (mkOperation "h") [4%nat] []]).
Proof.
  apply (simulation_reads_name_set (T:=float)).
  intros nm [<- | [<- | [<- | []]]]; rewrite <- !any_named_In;
    vm_compute; split; intros E; (exact E || reflexivity).
Defined.

(** X5.  Instructions that are not gates of the simulator are ignored: an
    instruction whose lower-case name is none of x, h and cx (a measurement,
    a barrier, another gate) can be put anywhere in a circuit, or taken out,
    without changing the result. *)
Theorem other_instructions_are_ignored
        {T : Type} `{Scalar T}
        (n c n' c' : nat) (before after : list CircuitInstruction)
        (inst : CircuitInstruction) :
  ~ In (lower (name (operation inst))) ["x"; "h"; "cx"]%string ->
  simulate_quantum_circuit (mkCircuit n c (before ++ inst :: after))
  = simulate_quantum_circuit (mkCircuit n' c' (before ++ after)).
Proof.
  intros N.
  assert (F : forall nm, In nm ["x"; "h"; "cx"]%string ->
              any_named (mkCircuit n c (before ++ inst :: after)) nm
              = any_named (mkCircuit n' c' (before ++ after)) nm).
  { intros nm Hnm. unfold any_named; simpl.
    rewrite !existsb_app; simpl.
    destruct (String.eqb_spec (lower (name (operation inst))) nm) as [E|E].
    - exfalso. apply N. now rewrite E.
    - reflexivity. }
  apply simulate_flags; apply F; simpl; auto.
Qed.

Lemma other_instructions_are_ignored_witness :
  ~ In (lower (name (operation (mkInstruction (mkOperation "measure")
                                              [1%nat] [0%nat]))))
       ["x"; "h"; "cx"]%string /\
  simulate_quantum_circuit (T:=float)
    (mkCircuit 2 1 ([mkInstruction (mkOperation "h") [1%nat] []]
                    ++ mkInstruction (mkOperation "measure") [1%nat] [0%nat]
                    :: []))
  = simulate_quantum_circuit (T:=float)
      (mkCircuit 2 0 ([mkInstruction (mkOperation "h") [1%nat] []] ++ [])).
Proof.
  assert (N : ~ In (lower (name (operation (mkInstruction
                      (mkOperation "measure") [1%nat] [0%nat]))))
                   ["x"; "h"; "cx"]%string).
  { simpl. intros [E | [E | [E | []]]]; discriminate E. }
  split; [exact N|].
  exact (other_instructions_are_ignored (T:=float) 2 1 2 0 _ _ _ N).
Defined.

(** ** Signature generation *)

Lemma valid_message_cases (m : string) :
  valid_message m = true <-> m = "0"%string \/ m = "1"%string.
Proof.
  unfold valid_message; simpl. rewrite orb_false_r, orb_true_iff.
  now rewrite !String.eqb_eq.
Qed.

(** X6.  [generate_signature] accepts exactly the messages '0' and '1': for
    these it returns a circuit of 2 qubits and 1 classical bit whose gates
    are, in order, x (for '1' only), h, cx, measure; for every other string
    it raises ValueError with the text "Message must be '0' or '1'.". *)
Theorem generate_signature_domain (m : string) :
  (In m ["0"; "1"]%string ->
   exists qc, generate_signature m = Ok qc /\
              num_qubits qc = 2%nat /\ num_clbits qc = 1%nat /\
              names qc = ((if String.eqb m "1" then ["x"%string] else [])
                          ++ ["h"; "cx"; "measure"]%string)%list) /\
  (~ In m ["0"; "1"]%string ->
   generate_signature m = Raise (ValueError "Message must be '0' or '1'.")).
Proof.
  split.
  - intros [<- | [<- | []]]; eexists; repeat split; reflexivity.
  - intros N. unfold generate_signature.
    destruct (existsb (String.eqb m) ["0"; "1"]%string) eqn:E; [|reflexivity].
    exfalso. apply N. apply valid_message_cases in E. simpl.
    destruct E as [-> | ->]; auto.
Qed.

(** X7.  The message can be read back from its signature circuit: the
    circuit generated for a message holds an x gate exactly when the message
    is '1', so two messages with the same circuit are the same message. *)
Theorem signature_circuit_encodes_message
        (m m' : string) (qc : QuantumCircuit) :
  generate_signature m = Ok qc ->
  (any_named qc "x" = String.eqb m "1") /\
  (generate_signature m' = Ok qc -> m = m').
Proof.
  assert (D : forall s q, generate_signature s = Ok q ->
              (s = "0"%string \/ s = "1"%string) /\
              any_named q "x" = String.eqb s "1").
  { intros s q G. unfold generate_signature in G.
    destruct (existsb (String.eqb s) ["0"; "1"]%string) eqn:E;
      simpl in G; [|discriminate].
    apply valid_message_cases in E. split; [exact E|].
    destruct E as [-> | ->]; simpl in G; injection G as <-; reflexivity. }
  intros G. destruct (D m qc G) as [V X]. split; [exact X|].
  intros G'. destruct (D m' qc G') as [V' X'].
  rewrite X in X'.
  destruct V as [-> | ->], V' as [-> | ->]; try reflexivity; discriminate X'.
Qed.

Lemma signature_circuit_encodes_message_witness :
  generate_signature "1" = Ok (measure (cx (h (x (mkCircuit 2 1 []) 0) 1) 0 1) 1 0) /\
  any_named (measure (cx (h (x (mkCircuit 2 1 []) 0) 1) 0 1) 1 0) "x"
  = String.eqb "1" "1".
Proof.
  assert (G : generate_signature "1"
              = Ok (measure (cx (h (x (mkCircuit 2 1 []) 0) 1) 0 1) 1 0))
    by reflexivity.
  split; [exact G|].
  exact (proj1 (signature_circuit_encodes_message "1" "1" _ G)).
Defined.

(** ** The drivers of QDS.py *)

Section CommunicationFacts.
Context {T : Type} `{Scalar T}.
Variable stdout_encodes : ascii -> bool.
Variable drawing : QuantumCircuit -> string.
Variable encode_error : string -> string.
Hypothesis verify_0 : forall qc, verify_signature (T:=T) qc = Ok "0"%string.

Local Abbreviation enc := (encodable stdout_encodes).
Local Abbreviation line_of m := ("Alice's message: " ++ m)%string.
Local Abbreviation comm := (communicate (T:=T) stdout_encodes drawing encode_error).
Local Abbreviation sim := (simulate_communication (T:=T) stdout_encodes drawing
    encode_error).
Local Abbreviation loop := (main_loop (T:=T) stdout_encodes drawing encode_error).
Local Abbreviation report m :=
  (turn_events stdout_encodes drawing encode_error m).

Lemma encodable_valid_line (m : string) :
  valid_message m = true -> enc (line_of m) = true.
Proof.
  intros V. apply valid_message_cases in V. destruct V as [-> | ->]; reflexivity.
Qed.

Lemma communicate_eq (m : string) :
  enc (line_of m) = true -> comm m = (report m, Ok tt).
Proof.
  intros E. unfold communicate. rewrite E.
  unfold try_body, generate_signature. fold (valid_message m).
  destruct (valid_message m) eqn:V; cbn [negb]; [|reflexivity].
  cbv zeta.
  destruct (enc (drawing (signature_of m))); [|reflexivity].
  rewrite verify_0. reflexivity.
Qed.

Lemma communicate_unencodable (m : string) :
  enc (line_of m) = false ->
  comm m = ([], Raise (ValueError (encode_error (line_of m)))).
Proof. intros E. unfold communicate. now rewrite E. Qed.

Lemma simulate_communication_eq (ms : list string) :
  forallb (fun m => enc (line_of m)) ms = true ->
  (sim ms = (flat_map (fun m => report m) ms, Ok tt)) /\
  (forall bad rest, enc (line_of bad) = false ->
     sim (ms ++ bad :: rest)
     = (flat_map (fun m => report m) ms,
        Raise (ValueError (encode_error (line_of bad))))).
Proof.
  induction ms as [|m ms IH]; intros E.
  - split; [reflexivity|]. intros bad rest B.
    cbn [app simulate_communication]. now rewrite (communicate_unencodable bad B).
  - cbn [forallb] in E. apply andb_prop in E. destruct E as [Em Ems].
    destruct (IH Ems) as [IH1 IH2]. split.
    + cbn [simulate_communication flat_map].
      now rewrite (communicate_eq m Em), IH1.
    + intros bad rest B. cbn [app simulate_communication flat_map].
      now rewrite (communicate_eq m Em), (IH2 bad rest B).
Qed.

Lemma simulate_communication_never_succeeds (ms : list string) :
  existsb (prints "Signature verified successfully!") (fst (sim ms)) = false.
Proof.
  induction ms as [|m ms IH]; [reflexivity|].
  cbn [simulate_communication].
  destruct (enc (line_of m)) eqn:E.
  - rewrite (communicate_eq m E).
    destruct (sim ms) as [out r]. cbn [fst] in *.
    rewrite existsb_app, IH.
    destruct (valid_message m); [destruct (enc (drawing (signature_of m)))|];
      reflexivity.
  - now rewrite (communicate_unencodable m E).
Qed.

Lemma main_loop_cons (m : string) (rest : list string) :
  loop (m :: rest)
  = if String.eqb m "exit" then
      ([ask_message; Printed "Exiting the simulation..."], Returned)
    else if negb (valid_message m) then
      let (out, e) := loop rest in
      (ask_message :: Printed "Invalid input. Please enter '0' or '1'." :: out, e)
    else
      match rest with
      | [] => (ask_message :: report m ++ [ask_more], EOFError)
      | more_messages :: rest' =>
          if negb (String.eqb (lower more_messages) "yes") then
            (ask_message :: report m
               ++ [ask_more; Printed "Exiting the simulation..."],
             Returned)
          else
            let (out, e) := loop rest' in
            (ask_message :: report m ++ ask_more :: out, e)
      end.
Proof.
  change (loop (m :: rest))
    with (if String.eqb m "exit" then
            ([ask_message; Printed "Exiting the simulation..."], Returned)
          else if negb (valid_message m) then
            let (out, e) := loop rest in
            (ask_message
               :: Printed "Invalid input. Please enter '0' or '1'." :: out, e)
          else
            let (ran, r) := sim [m] in
            match r with
            | Raise e => (ask_message :: ran, Uncaught e)
            | Ok _ =>
                match rest with
                | [] => (ask_message :: ran ++ [ask_more], EOFError)
                | more_messages :: rest' =>
                    if negb (String.eqb (lower more_messages) "yes") then
                      (ask_message :: ran
                         ++ [ask_more; Printed "Exiting the simulation..."],
                       Returned)
                    else
                      let (out, e) := loop rest' in
                      (ask_message :: ran ++ ask_more :: out, e)
                end
            end).
  destruct (String.eqb m "exit"); [reflexivity|].
  destruct (valid_message m) eqn:V; cbn [negb]; [|reflexivity].
  cbn [simulate_communication].
  rewrite (communicate_eq m (encodable_valid_line m V)), V.
  rewrite app_nil_r. reflexivity.
Qed.

(** Every event of [main] is one of its own lines and questions or an event
    of a turn of [simulate_communication] on a valid message, and no
    exception of the simulation leaves [main]. *)
Lemma main_loop_events (P : event -> Prop) :
  P ask_message -> P ask_more ->
  P (Printed "Exiting the simulation...") ->
  P (Printed "Invalid input. Please enter '0' or '1'.") ->
  (forall m, valid_message m = true -> Forall P (report m)) ->
  forall n inputs, (length inputs < n)%nat ->
    Forall P (fst (loop inputs)) /\
    (snd (loop inputs) = Returned \/ snd (loop inputs) = EOFError).
Proof.
  intros Pm Pa Pe Pi Pc.
  induction n as [|n IH]; intros inputs L; [lia|].
  destruct inputs as [|m rest].
  { cbn [main_loop fst snd]. auto. }
  cbn [length] in L. rewrite main_loop_cons.
  destruct (String.eqb m "exit").
  { cbn [fst snd]. auto. }
  destruct (valid_message m) eqn:V; cbn [negb].
  - specialize (Pc m V). rewrite V in Pc.
    destruct rest as [|more rest'].
    + cbn [fst snd]. split; [|auto].
      constructor; [exact Pm|]. apply Forall_app. auto.
    + destruct (String.eqb (lower more) "yes"); cbn [negb].
      * destruct (IH rest' ltac:(cbn [length] in L; lia)) as [F S].
        destruct (loop rest') as [out e]. cbn [fst snd] in F, S |- *.
        split; [|exact S].
        constructor; [exact Pm|]. apply Forall_app. auto.
      * cbn [fst snd]. split; [|auto].
        constructor; [exact Pm|]. apply Forall_app. auto.
  - destruct (IH rest ltac:(lia)) as [F S].
    destruct (loop rest) as [out e]. cbn [fst snd] in F, S |- *. auto.
Qed.

End CommunicationFacts.

Section DriverRuns.
Variable stdout_encodes : ascii -> bool.
Variable drawing : QuantumCircuit -> string.
Variable encode_error : string -> string.

Lemma simulate_communication_R_float (ms : list string) :
  simulate_communication (T:=R) stdout_encodes drawing encode_error ms =
      simulate_communication (T:=float) stdout_encodes drawing encode_error ms.
Proof.
  induction ms as [|m ms IH]; [reflexivity|].
  cbn [simulate_communication]. rewrite IH.
  destruct (encodable stdout_encodes ("Alice's message: " ++ m)) eqn:E.
  - now rewrite (communicate_eq stdout_encodes drawing encode_error verify_signature_R_0
      m E),
                (communicate_eq stdout_encodes drawing encode_error
                    verify_signature_float_0 m E).
  - now rewrite !communicate_unencodable.
Qed.

Lemma main_loop_float_cons (m : string) (rest : list string) :
  main_loop (T:=float) stdout_encodes drawing encode_error (m :: rest)
  = if String.eqb m "exit" then
      ([ask_message; Printed "Exiting the simulation..."], Returned)
    else if negb (valid_message m) then
      let (out, e) := main_loop (T:=float) stdout_encodes drawing encode_error rest in
      (ask_message :: Printed "Invalid input. Please enter '0' or '1'." :: out, e)
    else
      match rest with
      | [] => (ask_message :: turn_events stdout_encodes drawing encode_error m ++
          [ask_more], EOFError)
      | more_messages :: rest' =>
          if negb (String.eqb (lower more_messages) "yes") then
            (ask_message :: turn_events stdout_encodes drawing encode_error m
               ++ [ask_more; Printed "Exiting the simulation..."],
             Returned)
          else
            let (out, e) := main_loop (T:=float) stdout_encodes drawing encode_error
                rest' in
            (ask_message :: turn_events stdout_encodes drawing encode_error m ++
                ask_more :: out, e)
      end.
Proof. apply main_loop_cons, verify_signature_float_0. Qed.

Lemma main_loop_R_float (n : nat) (inputs : list string) :
  (length inputs < n)%nat -> main_loop (T:=R) stdout_encodes drawing encode_error inputs
      = main_loop (T:=float) stdout_encodes drawing encode_error inputs.
Proof.
  revert inputs. induction n as [|n IH]; intros inputs L; [lia|].
  destruct inputs as [|m rest]; [reflexivity|].
  cbn [length] in L.
  rewrite main_loop_float_cons,
          (main_loop_cons stdout_encodes drawing encode_error verify_signature_R_0).
  destruct (String.eqb m "exit"); [reflexivity|].
  destruct (negb (valid_message m)).
  - now rewrite (IH rest) by lia.
  - destruct rest as [|more rest']; [reflexivity|].
    destruct (negb (String.eqb (lower more) "yes")); [reflexivity|].
    now rewrite (IH rest') by (cbn [length] in L; lia).
Qed.

(** X8.  [simulate_communication] handles the messages one after the other.
    As long as the message lines can be written, it does not raise: a valid
    message gives its line, the heading and, when the drawing can be
    written, the drawing, "Verification result: 0" and "Verification
    failed!"; when the drawing cannot be encoded, the caught
    UnicodeEncodeError gives an "Error: ..." print instead.  Any other
    message gives its line and the "Error: ..." print of the caught
    ValueError, and the messages after it are still handled.  The first
    message whose line cannot be written ends the run by its exception.
    Exact arithmetic gives the same run as binary64. *)
Theorem simulate_communication_transcript
        (ms : list string) (bad : string) (rest : list string) :
  forallb (fun m => encodable stdout_encodes ("Alice's message: " ++ m)) ms = true ->
  simulate_communication (T:=float) stdout_encodes drawing encode_error ms = (flat_map
      (fun m => turn_events stdout_encodes drawing encode_error m) ms, Ok tt) /\
  (encodable stdout_encodes ("Alice's message: " ++ bad) = false ->
   simulate_communication (T:=float) stdout_encodes drawing encode_error (ms ++ bad ::
       rest)
   = (flat_map (fun m => turn_events stdout_encodes drawing encode_error m) ms,
      Raise (ValueError (encode_error ("Alice's message: " ++ bad))))) /\
  simulate_communication (T:=R) stdout_encodes drawing encode_error (ms ++ bad :: rest)
      = simulate_communication (T:=float) stdout_encodes drawing encode_error (ms ++ bad
          :: rest).
Proof.
  intros E.
  destruct (simulate_communication_eq stdout_encodes drawing encode_error
      verify_signature_float_0 ms E)
    as [S1 S2].
  split; [exact S1|]. split; [apply S2|].
  apply simulate_communication_R_float.
Qed.

(** X9.  [simulate_communication] never makes the print call "Signature
    verified successfully!".  When the message lines can be written, it
    makes the print call "Verification failed!" once for every valid message
    whose drawing can be written, and for every message exactly one of the
    two: that call, or a print call of an "Error: ..." text. *)
Theorem simulate_communication_counts (ms : list string) :
  existsb (prints "Signature verified successfully!") (fst (simulate_communication
      (T:=float) stdout_encodes drawing encode_error ms)) = false /\
  (forallb (fun m => encodable stdout_encodes ("Alice's message: " ++ m)) ms = true ->
   length (filter (prints "Verification failed!") (fst (simulate_communication
       (T:=float) stdout_encodes drawing encode_error ms)))
   = length (filter (fun m => valid_message m
                              && encodable stdout_encodes (drawing (signature_of m)))
                                  ms) /\
   (length (filter (prints "Verification failed!") (fst (simulate_communication
       (T:=float) stdout_encodes drawing encode_error ms)))
    + length (filter prints_error (fst (simulate_communication (T:=float) stdout_encodes
        drawing encode_error ms))))%nat
   = length ms).
Proof.
  split.
  { apply simulate_communication_never_succeeds, verify_signature_float_0. }
  intros E.
  destruct (simulate_communication_eq stdout_encodes drawing encode_error
      verify_signature_float_0 ms E)
    as [-> _].
  cbn [fst]. clear E.
  assert (C : forall m,
             length (filter (prints "Verification failed!") (turn_events stdout_encodes
                 drawing encode_error m))
             = (if valid_message m && encodable stdout_encodes (drawing (signature_of
                 m))
                then 1 else 0)%nat /\
             length (filter prints_error (turn_events stdout_encodes drawing
                 encode_error m))
             = (if valid_message m && encodable stdout_encodes (drawing (signature_of
                 m))
                then 0 else 1)%nat).
  { intros m.
    destruct (valid_message m); [destruct (encodable stdout_encodes (drawing
        (signature_of m)))|];
      split; reflexivity. }
  induction ms as [|m ms [IH1 IH2]]; [split; reflexivity|].
  cbn [flat_map]. rewrite !filter_app, !length_app.
  destruct (C m) as [C1 C2]. rewrite C1, C2.
  cbn [filter].
  destruct (valid_message m && encodable stdout_encodes (drawing (signature_of m)));
    cbn [length]; split; lia.
Qed.

(** X10.  [main] never makes the print call "Signature verified
    successfully!", and the ValueError of [generate_signature] never shows
    in a run of [main], which checks the message before it calls
    [simulate_communication]: every print call of an "Error:" text in a run
    of [main] reports the drawing of a valid message that the standard
    output could not encode.  No exception of the simulation leaves [main]:
    it returns, or [input()] runs out of input.  Exact arithmetic gives the
    same run as binary64. *)
Theorem main_reports_only_drawing_errors (inputs : list string) :
  Forall (fun e =>
            prints "Signature verified successfully!" e = false /\
            (prints_error e = true ->
             exists m, valid_message m = true /\
                       encodable stdout_encodes (drawing (signature_of m)) = false /\
                       e = Printed ("Error: "
                                    ++ encode_error (drawing (signature_of m)))))
         (fst (main (T:=float) stdout_encodes drawing encode_error inputs)) /\
  (snd (main (T:=float) stdout_encodes drawing encode_error inputs) = Returned \/ snd
      (main (T:=float) stdout_encodes drawing encode_error inputs) = EOFError) /\
  main (T:=R) stdout_encodes drawing encode_error inputs = main (T:=float)
      stdout_encodes drawing encode_error inputs.
Proof.
  set (P := fun e =>
              prints "Signature verified successfully!" e = false /\
              (prints_error e = true ->
               exists m, valid_message m = true /\
                         encodable stdout_encodes (drawing (signature_of m)) = false /\
                         e = Printed ("Error: "
                                      ++ encode_error (drawing (signature_of m))))).
  assert (Q : forall e, prints "Signature verified successfully!" e = false ->
                        prints_error e = false -> P e).
  { intros e E1 E2. split; [exact E1|]. rewrite E2. discriminate. }
  destruct (main_loop_events stdout_encodes drawing encode_error
              verify_signature_float_0 P) with (n := S (length inputs))
                                               (inputs := inputs)
    as [F Hend]; try (apply Q; reflexivity); [| lia |].
  { intros m V. rewrite V.
    destruct (encodable stdout_encodes (drawing (signature_of m))) eqn:D;
      repeat (constructor; [apply Q; reflexivity|]); [constructor|].
    constructor; [|constructor]. split; [reflexivity|].
    intros _. now exists m. }
  unfold main.
  rewrite (main_loop_R_float (S (length inputs)) inputs) by lia.
  destruct (main_loop (T:=float) stdout_encodes drawing encode_error inputs) as [out e].
      cbn [fst snd] in *.
  split; [|split; [exact Hend | reflexivity]].
  constructor; [apply Q; reflexivity | exact F].
Qed.

(** X11.  Every run of [main] starts with the welcome line and stops in one
    of two ways: it returns, and then its last event is the line "Exiting
    the simulation..."; or the input runs out, and then its last event is
    the question that was left without an answer. *)
Theorem main_transcript_frame (inputs : list string) :
  match snd (main (T:=float) stdout_encodes drawing encode_error inputs) with
  | Returned =>
      exists middle,
        fst (main (T:=float) stdout_encodes drawing encode_error inputs)
        = Printed "Welcome to the Quantum Digital Signature Simulator!"
            :: middle ++ [Printed "Exiting the simulation..."]
  | EOFError =>
      exists middle question,
        (question = ask_message \/ question = ask_more) /\
        fst (main (T:=float) stdout_encodes drawing encode_error inputs)
        = Printed "Welcome to the Quantum Digital Signature Simulator!"
            :: middle ++ [question]
  | Uncaught _ => False
  end.
Proof.
  assert (A : forall n inputs, (length inputs < n)%nat ->
              match snd (main_loop (T:=float) stdout_encodes drawing encode_error
                  inputs) with
              | Returned =>
                  exists middle,
                    fst (main_loop (T:=float) stdout_encodes drawing encode_error
                        inputs)
                    = middle ++ [Printed "Exiting the simulation..."]
              | EOFError =>
                  exists middle question,
                    (question = ask_message \/ question = ask_more) /\
                    fst (main_loop (T:=float) stdout_encodes drawing encode_error
                        inputs) = middle ++ [question]
              | Uncaught _ => False
              end).
  { clear inputs. induction n as [|n IH]; intros inputs L; [lia|].
    destruct inputs as [|m rest].
    { cbn [main_loop fst snd]. exists [], ask_message. auto. }
    cbn [length] in L. rewrite main_loop_float_cons.
    destruct (String.eqb m "exit").
    { cbn [fst snd]. now exists [ask_message]. }
    destruct (negb (valid_message m)).
    - specialize (IH rest ltac:(lia)).
      destruct (main_loop (T:=float) stdout_encodes drawing encode_error rest) as [out
          e]. cbn [fst snd] in *.
      destruct e as [| |e]; [| |exact IH].
      + destruct IH as (mid & ->).
        now exists (ask_message
                      :: Printed "Invalid input. Please enter '0' or '1'."
                      :: mid).
      + destruct IH as (mid & q & Hq & ->).
        exists (ask_message
                  :: Printed "Invalid input. Please enter '0' or '1'." :: mid), q.
        auto.
    - set (ran := turn_events stdout_encodes drawing encode_error m).
      destruct rest as [|more rest'].
      + cbn [fst snd]. exists (ask_message :: ran), ask_more. auto.
      + destruct (negb (String.eqb (lower more) "yes")).
        * cbn [fst snd]. exists (ask_message :: ran ++ [ask_more]).
          cbn [app]. now rewrite <- app_assoc.
        * specialize (IH rest' ltac:(cbn [length] in L; lia)).
          destruct (main_loop (T:=float) stdout_encodes drawing encode_error rest') as
              [out e]. cbn [fst snd] in *.
          destruct e as [| |e]; [| |exact IH].
          -- destruct IH as (mid & ->).
             exists (ask_message :: ran ++ ask_more :: mid).
             cbn [app]. now rewrite <- app_assoc.
          -- destruct IH as (mid & q & Hq & ->).
             exists (ask_message :: ran ++ ask_more :: mid), q.
             split; [exact Hq|]. cbn [app]. now rewrite <- app_assoc. }
  specialize (A (S (length inputs)) inputs ltac:(lia)).
  unfold main. destruct (main_loop (T:=float) stdout_encodes drawing encode_error
      inputs) as [out e].
  cbn [fst snd] in *. destruct e as [| |e]; [| |exact A].
  - destruct A as (mid & ->). now exists mid.
  - destruct A as (mid & q & Hq & ->). now exists mid, q.
Qed.

(** X12.  The line exit always ends [main] by a return, wherever it is
    read: as a message it leaves the loop, and as an answer to "another
    message?" it is not a yes.  So a run whose input holds the line exit
    never runs out of input. *)
Theorem exit_line_ends_main (inputs : list string) :
  In "exit"%string inputs ->
  snd (main (T:=float) stdout_encodes drawing encode_error inputs) = Returned.
Proof.
  assert (A : forall n inputs, (length inputs < n)%nat ->
              In "exit"%string inputs ->
              snd (main_loop (T:=float) stdout_encodes drawing encode_error inputs) =
                  Returned).
  { clear inputs. induction n as [|n IH]; intros inputs L Hin; [lia|].
    destruct inputs as [|m rest]; [destruct Hin|].
    cbn [length] in L. rewrite main_loop_float_cons.
    destruct (String.eqb_spec m "exit") as [E|E]; [reflexivity|].
    destruct Hin as [Hm | Hin]; [congruence|].
    destruct (negb (valid_message m)).
    - specialize (IH rest ltac:(lia) Hin).
      destruct (main_loop (T:=float) stdout_encodes drawing encode_error rest) as [out
          e]. exact IH.
    - destruct rest as [|more rest']; [destruct Hin|].
      destruct (String.eqb_spec (lower more) "yes") as [Y|Y];
        cbn [negb]; [|reflexivity].
      destruct Hin as [Hm | Hin]; [subst more; discriminate Y|].
      specialize (IH rest' ltac:(cbn [length] in L; lia) Hin).
      destruct (main_loop (T:=float) stdout_encodes drawing encode_error rest') as [out
          e]. exact IH. }
  intros Hin. specialize (A (S (length inputs)) inputs ltac:(lia) Hin).
  unfold main. destruct (main_loop (T:=float) stdout_encodes drawing encode_error
      inputs) as [out e]. exact A.
Qed.

End DriverRuns.

(** An ASCII terminal ([stdout_encodes] is never true) and a drawing with a
    character outside ASCII: the runs of the lemmas below take the branch
    of the drawing that cannot be written. *)
Lemma simulate_communication_transcript_witness :
  forallb (fun m => encodable (fun _ => false) ("Alice's message: " ++ m)%string)
          ["1"; "abc"]%string = true /\
  snd (simulate_communication (T:=float) (fun _ => false)
         (fun _ => String (ascii_of_nat 200) EmptyString) (fun _ => "e"%string)
         ["1"; "abc"]%string)
  = Ok tt.
Proof.
  assert (E : forallb (fun m => encodable (fun _ => false)
                                  ("Alice's message: " ++ m)%string)
                      ["1"; "abc"]%string = true) by reflexivity.
  split; [exact E|].
  exact (f_equal snd
           (proj1 (simulate_communication_transcript (fun _ => false)
                     (fun _ => String (ascii_of_nat 200) EmptyString)
                     (fun _ => "e"%string)
                     ["1"; "abc"]%string "x"%string [] E))).
Defined.

Lemma simulate_communication_counts_witness :
  length (filter (prints "Verification failed!")
            (fst (simulate_communication (T:=float)
                    (fun _ => false) (fun _ => "q"%string) (fun _ => "e"%string)
                    ["1"; "abc"; "0"]%string)))
  = 2%nat.
Proof.
  exact (proj1 (proj2 (simulate_communication_counts
                         (fun _ => false) (fun _ => "q"%string)
                         (fun _ => "e"%string)
                         ["1"; "abc"; "0"]%string) eq_refl)).
Defined.

Lemma exit_line_ends_main_witness :
  In "exit"%string ["1"; "Yes"; "7"; "exit"; "0"]%string /\
  snd (main (T:=float) (fun _ => false)
         (fun _ => String (ascii_of_nat 200) EmptyString) (fun _ => "e"%string)
         ["1"; "Yes"; "7"; "exit"; "0"]%string) = Returned.
Proof.
  assert (I4 : In "exit"%string ["1"; "Yes"; "7"; "exit"; "0"]%string)
    by (simpl; auto).
  split; [exact I4|].
  exact (exit_line_ends_main _ _ _ _ I4).
Defined.

(** ** The circuit of the random number generator *)


